(** * Cognitive Streetlight Control System: the dashboard state store

    A shallow embedding of the client-side state reconciliation code of
    the React front end:

    - [SmartCityContext.tsx]: the shared store ([addAlert], [updateAlert],
      [setStreetlights], [setMetrics], the derived [activeIncidents]);
    - [EmergencyAlerts.tsx]: the event-stream handler that raises accident
      alerts and the two dispatch buttons of an alert card;
    - [Dashboard.tsx]: the event-stream handler that stores snapshots and
      feeds the three chart history buffers.

    Conventions of the embedding.

    - A JavaScript [number] is modelled by the rational it denotes ([Q]);
      comparisons are exact, arithmetic is carried out unrounded, where the
      code rounds each result to the nearest double.  A statement about a
      computed number therefore only gives bounds that this rounding keeps
      (whole-number bounds in the range where doubles are exact), and a
      definition says in its comment where the rounding can change its
      result.  The millisecond clock [Date.now()] is an integer ([Z]).
    - A React state cell is a field of a state record, a state setter
      [setX(prev => f(prev))] is the function [f] applied to the field.
    - What a handler reads from its surroundings (the clock, the successive
      draws of [Math.random()], the formatted wall-clock time, and the
      alert list of the last committed render) is passed to it in an
      [Env].
    - A handler that can raise returns a [Completion]: either the new state
      together with the lines written to the console, or the exception.
    - The guards of the two stream handlers do not read the store: the
      alert center reads [alertsRef.current], which an effect sets to the
      store's list only after the next render, and the dashboard reads the
      [alerts] captured by the closure of its effect, which is replaced
      only when the effect runs again.  Both are the list of the last
      committed render ([alerts_seen]), which lags behind the store until
      React has rendered; [addAlert] inserts into the store's latest list. *)

From Stdlib Require Import ZArith QArith Qround String Ascii List Lia Lqa.
From Stdlib Require Import DecimalString DecimalZ.
From stdpp Require Import base decidable option list strings gmap.

Open Scope string_scope.
Open Scope list_scope.
Open Scope nat_scope.

(** ** Numbers and strings *)

(** [x > y] on numbers. *)
Definition num_gt (x y : Q) : bool := negb (Qle_bool x y).

(** [x || 0] on a possibly missing number: [undefined] and [0] are falsy. *)
Definition or_zero (x : option Q) : Q :=
  match x with
  | Some v => if Qeq_bool v 0 then 0%Q else v
  | None => 0%Q
  end.

(** [n.toString()] for an integer-valued number. *)
Definition toString (n : Z) : string := NilEmpty.string_of_int (Z.to_int n).

(** [Math.floor(x)]. *)
Definition Math_floor (x : Q) : Z := Qfloor x.

(** [x.toFixed(1)] for a non-negative [x]: the integer [n] nearest to
    [10 * x] (the larger one on a tie), printed with one decimal. *)
Definition toFixed1 (x : Q) : string :=
  let n := Qfloor (x * 10 + (1 # 2)) in
  (toString (n / 10) ++ "." ++ toString (n mod 10))%string.

(** [arr.slice(start, end)]: a negative index counts from the end of the
    array, both indices are clipped to the array, [end] defaults to the
    length. *)
Definition relative_index (len : nat) (i : Z) : nat :=
  if (i <? 0)%Z then Z.to_nat (Z.max (Z.of_nat len + i) 0)
  else Nat.min (Z.to_nat i) len.

Definition slice {A : Type} (start : Z) (end_ : option Z) (l : list A) : list A :=
  let len := length l in
  let k := relative_index len start in
  let final := match end_ with
               | Some e => relative_index len e
               | None => len
               end in
  take (final - k) (drop k l).

(** ** Data model ([SmartCityContext.tsx]) *)

Inductive Severity := critical | high | medium | low.
Inductive Status := active | resolved | investigating.

#[global] Instance Severity_eq_dec : EqDecision Severity.
Proof. solve_decision. Defined.
#[global] Instance Status_eq_dec : EqDecision Status.
Proof. solve_decision. Defined.

Record Streetlight := mkStreetlight {
  sl_id : string;
  sl_brightness : Q;
  sl_status : string
}.

(** [interface Alert]; the fields marked [?] in the source are options. *)
Record Alert := mkAlert {
  id : string;
  type : string;
  severity : Severity;
  location : string;
  coordinates : option (Q * Q);
  description : option string;
  timestamp : string;
  status : option Status;
  responders : option Q
}.

(** [Partial<Alert>]: [None] is a key that is not provided.  For a field
    that is itself optional the provided value may be [undefined]. *)
Record PartialAlert := mkPartial {
  p_id : option string;
  p_type : option string;
  p_severity : option Severity;
  p_location : option string;
  p_coordinates : option (option (Q * Q));
  p_description : option (option string);
  p_timestamp : option string;
  p_status : option (option Status);
  p_responders : option (option Q)
}.

(** [{ status: s }] *)
Definition status_only (s : Status) : PartialAlert :=
  mkPartial None None None None None None None (Some (Some s)) None.

(** [{ status: s, responders: r }] *)
Definition status_and_responders (s : Status) (r : Q) : PartialAlert :=
  mkPartial None None None None None None None (Some (Some s)) (Some (Some r)).

Record Metrics := mkMetrics {
  active_power : Q;
  baseline_100 : Q;
  baseline_70 : Q;
  savings_vs_100 : Q;
  savings_vs_70 : Q;
  brightness_dist : list Q;
  occupancy : Q;
  pedestrians : Q;
  vehicles : Q;
  sim_time : Q
}.

Record SmartCityState := mkState {
  streetlights : list Streetlight;
  alerts : list Alert;
  energySavings : Q;
  monitoredZones : Q;
  metrics : Metrics
}.

(** The initial values of the [useState] cells of [SmartCityProvider]. *)
Definition initial_metrics : Metrics :=
  mkMetrics 0 0 0 0 0 [] 0 0 0 0.

Definition initial_state : SmartCityState :=
  mkState [] [] 73 23 initial_metrics.

(** ** Store operations ([SmartCityContext.tsx]) *)

(** [setAlerts(prev => [newAlert, ...prev].slice(0, 20))] *)
Definition addAlert (newAlert : Alert) (prev : list Alert) : list Alert :=
  slice 0 (Some 20%Z) (newAlert :: prev).

(** [{ ...alert, ...updates }] *)
Definition spread (alert : Alert) (updates : PartialAlert) : Alert :=
  {| id := default (id alert) (p_id updates);
     type := default (type alert) (p_type updates);
     severity := default (severity alert) (p_severity updates);
     location := default (location alert) (p_location updates);
     coordinates := default (coordinates alert) (p_coordinates updates);
     description := default (description alert) (p_description updates);
     timestamp := default (timestamp alert) (p_timestamp updates);
     status := default (status alert) (p_status updates);
     responders := default (responders alert) (p_responders updates) |}.

(** [setAlerts(prev => prev.map(alert =>
       alert.id === alertId ? { ...alert, ...updates } : alert))] *)
Definition updateAlert (alertId : string) (updates : PartialAlert)
    (prev : list Alert) : list Alert :=
  map (fun alert =>
         if String.eqb (id alert) alertId then spread alert updates else alert)
      prev.

(** [a.status === 'active' || a.status === 'investigating'] *)
Definition is_open (a : Alert) : bool :=
  match status a with
  | Some active | Some investigating => true
  | _ => false
  end.

(** [alerts.filter(a => ...).length] *)
Definition activeIncidents (alerts : list Alert) : nat :=
  length (List.filter is_open alerts).

Definition setStreetlights (lights : list Streetlight) (st : SmartCityState)
    : SmartCityState :=
  mkState lights (alerts st) (energySavings st) (monitoredZones st) (metrics st).

Definition setAlerts (f : list Alert -> list Alert) (st : SmartCityState)
    : SmartCityState :=
  mkState (streetlights st) (f (alerts st)) (energySavings st)
          (monitoredZones st) (metrics st).

Definition setEnergySavings (savings : Q) (st : SmartCityState) : SmartCityState :=
  mkState (streetlights st) (alerts st) savings (monitoredZones st) (metrics st).

Definition setMetrics (m : Metrics) (st : SmartCityState) : SmartCityState :=
  mkState (streetlights st) (alerts st) (energySavings st) (monitoredZones st) m.

(** ** The event stream *)

(** The recognised fields of a decoded stream record; every field may be
    missing. *)
Record Payload := mkPayload {
  prediction : option string;
  confidence : option Q;
  pl_streetlights : option (list Streetlight);
  pl_metrics : option Metrics
}.

(** [event.data], by the outcome of [JSON.parse(event.data)]: the text is
    either rejected with a [SyntaxError] or decoded to a record. *)
Inductive MessageData :=
| Malformed (text : string)
| Json (data : Payload).

(** What a handler invocation reads from its surroundings: [Date.now()],
    the successive results of [Math.random()] in evaluation order,
    [new Date().toLocaleTimeString()], [new Date().toISOString()], and the
    alert list of the last committed render: [alertsRef.current] for the
    handler of [EmergencyAlerts], the [alerts] in the closure of the effect
    for the handler of [Dashboard].  The store's list may have moved on
    since that render. *)
Record Env := mkEnv {
  now : Z;
  random : nat -> Q;
  localeTime : string;
  isoTime : string;
  alerts_seen : list Alert
}.

Inductive Exception :=
| SyntaxError (text : string).

Inductive Completion (S : Type) :=
| Normal (s : S) (console : list string)
| Throw (e : Exception).
Arguments Normal {S} s console.
Arguments Throw {S} e.

(** The state a handler leaves behind: an exception that escapes the
    handler is reported by the event loop and the state stays as it was. *)
Definition state_after {S : Type} (before : S) (c : Completion S) : S :=
  match c with
  | Normal s _ => s
  | Throw _ => before
  end.

(** ** [EmergencyAlerts.tsx]: the alert reconciler *)

(** [alerts.some(a => a.type === 'accident' && a.status === 'active')] *)
Definition is_active_accident (a : Alert) : bool :=
  String.eqb (type a) "accident" &&
  match status a with Some active => true | _ => false end.

Definition already (alerts : list Alert) : bool :=
  existsb is_active_accident alerts.

(** The object literal handed to [addAlert] by the handler. *)
Definition accident_alert (env : Env) (conf : Q) : Alert :=
  {| id := toString (now env);
     type := "accident";
     severity := critical;
     location := ("Intersection " ++
                  toString (Math_floor (random env 0 * 100)))%string;
     coordinates := Some ((40.7128 + (random env 1 - 0.5) * 0.1)%Q,
                          (-74.0060 + (random env 2 - 0.5) * 0.1)%Q);
     description := Some ("Vehicle collision detected with " ++ toFixed1 conf
                          ++ "% confidence.")%string;
     timestamp := "Just now";
     status := Some active;
     responders := Some (inject_Z (Math_floor (random env 3 * 3)) + 1)%Q |}.

(** [data.prediction === 'Accident' && data.confidence > 90] *)
Definition accident_detected (data : Payload) : bool :=
  match prediction data, confidence data with
  | Some p, Some c => String.eqb p "Accident" && num_gt c 90
  | _, _ => false
  end.

(** The alert the handler creates for a decoded record, if any;
    [current] is [alertsRef.current], the list the guard looks at. *)
Definition EmergencyAlerts_newAlert (env : Env) (data : Payload)
    (current : list Alert) : option Alert :=
  match confidence data with
  | Some c =>
      if accident_detected data then
        if negb (already current) then Some (accident_alert env c) else None
      else None
  | None => None
  end.

(** [eventSource.onmessage] of [EmergencyAlerts]: the whole body is inside
    [try { ... } catch (e) { console.warn(...) }].  The guard reads
    [alertsRef.current]; [addAlert] is applied to [prev], the latest list
    of the store. *)
Definition EmergencyAlerts_onmessage (env : Env) (msg : MessageData)
    (prev : list Alert) : Completion (list Alert) :=
  match msg with
  | Malformed _ => Normal prev ["Failed to parse SSE event"]
  | Json data =>
      match EmergencyAlerts_newAlert env data (alerts_seen env) with
      | Some a => Normal (addAlert a prev) []
      | None => Normal prev []
      end
  end.

(** *** The dispatch buttons of an alert card *)

(** The body of the response of the responder service. *)
Record ResponseBody := mkBody { rb_status : option string }.

(** How [fetch(...)] followed by [res.json().catch(() => null)] ends:
    [fetch] rejects, or [json] is [null] ([None]) or a decoded body. *)
Inductive FetchOutcome :=
| NetworkFailure
| Response (json : option ResponseBody).

(** [json && json.status === 'ok'] *)
Definition acknowledged (json : option ResponseBody) : bool :=
  match json with
  | Some b => match rb_status b with
              | Some s => String.eqb s "ok"
              | None => false
              end
  | None => false
  end.

(** The code after the [await]s, shared by both buttons: the [if]/[else]
    on the body, and the [catch] block. *)
Definition settle (alertId : string) (o : FetchOutcome) (alerts : list Alert)
    : list Alert :=
  match o with
  | Response json =>
      if acknowledged json
      then updateAlert alertId (status_only investigating) alerts
      else updateAlert alertId (status_only active) alerts
  | NetworkFailure => updateAlert alertId (status_only active) alerts
  end.

(** "Send Response", before the request is issued: the optimistic update.
    [card] is the [alert] prop of the card that was clicked. *)
Definition SendResponse_optimistic (card : Alert) (alerts : list Alert)
    : list Alert :=
  updateAlert (id card)
    (status_and_responders investigating (or_zero (responders card) + 1)%Q)
    alerts.

(** "Send Response" ([action: 'dispatch']), from click to completion. *)
Definition SendResponse_onClick (card : Alert) (o : FetchOutcome)
    (alerts : list Alert) : list Alert :=
  settle (id card) o (SendResponse_optimistic card alerts).

(** "Request Ambulance" ([action: 'ambulance']): the request is issued
    first, the store is only touched after the response. *)
Definition RequestAmbulance_onClick (card : Alert) (o : FetchOutcome)
    (alerts : list Alert) : list Alert :=
  settle (id card) o alerts.

Inductive DispatchAction := action_dispatch | action_ambulance.

(** The list as it stands when the request leaves the browser. *)
Definition before_request (action : DispatchAction) (card : Alert)
    (alerts : list Alert) : list Alert :=
  match action with
  | action_dispatch => SendResponse_optimistic card alerts
  | action_ambulance => alerts
  end.

Definition dispatch (action : DispatchAction) (card : Alert) (o : FetchOutcome)
    (alerts : list Alert) : list Alert :=
  match action with
  | action_dispatch => SendResponse_onClick card o alerts
  | action_ambulance => RequestAmbulance_onClick card o alerts
  end.

(** ** [Dashboard.tsx]: snapshots and chart histories *)

Record PowerPoint := mkPower {
  pw_time : string; pw_active : Q; pw_base100 : Q; pw_base70 : Q }.
Record SavingsPoint := mkSavings {
  sv_time : string; sv_sav100 : Q; sv_sav70 : Q }.
Record OccupancyPoint := mkOccupancy { oc_x : Q; oc_y : Q }.

(** The [useState] cells local to the [Dashboard] component. *)
Record DashboardState := mkDashboard {
  powerHistory : list PowerPoint;
  savingsHistory : list SavingsPoint;
  occupancyHistory : list OccupancyPoint;
  aiLatency : Q;
  activeFeeds : Q
}.

Definition initial_dashboard : DashboardState := mkDashboard [] [] [] 47 24.

(** [[...prev, point].slice(-n)] *)
Definition push_history {A : Type} (n : Z) (point : A) (prev : list A) : list A :=
  slice (- n) None (prev ++ [point]).

(** [dist.length > 0 ? dist.reduce((a, b) => a + b, 0) / dist.length : 0].
    The code rounds every partial sum and the quotient, so its average can
    differ from this one in the last digits (and lie just above the largest
    value); bounds that are whole numbers, such as 0 and 100, are kept. *)
Definition avgBrightness (dist : list Q) : Q :=
  match dist with
  | [] => 0%Q
  | _ => (fold_left Qplus dist 0 / inject_Z (Z.of_nat (length dist)))%Q
  end.

Definition power_point (env : Env) (m : Metrics) : PowerPoint :=
  mkPower (localeTime env) (active_power m) (baseline_100 m) (baseline_70 m).
Definition savings_point (env : Env) (m : Metrics) : SavingsPoint :=
  mkSavings (localeTime env) (savings_vs_100 m) (savings_vs_70 m).
Definition occupancy_point (m : Metrics) : OccupancyPoint :=
  mkOccupancy (avgBrightness (brightness_dist m)) (occupancy m).

(** [if (data.streetlights) { setStreetlights(data.streetlights); }]: an
    array, even an empty one, is truthy. *)
Definition ingest_streetlights (data : Payload) (st : SmartCityState)
    : SmartCityState :=
  match pl_streetlights data with
  | Some lights => setStreetlights lights st
  | None => st
  end.

(** [if (data.metrics) { ... }] *)
Definition ingest_metrics (env : Env) (data : Payload)
    (s : SmartCityState * DashboardState) : SmartCityState * DashboardState :=
  match pl_metrics data with
  | Some m =>
      let st := setEnergySavings (savings_vs_100 m) (setMetrics m (fst s)) in
      let d := snd s in
      (st,
       mkDashboard
         (push_history 20 (power_point env m) (powerHistory d))
         (push_history 20 (savings_point env m) (savingsHistory d))
         (push_history 50 (occupancy_point m) (occupancyHistory d))
         (aiLatency d) (activeFeeds d))
  | None => s
  end.

(** The object literal handed to [addAlert] by the dashboard. *)
Definition dashboard_alert (env : Env) : Alert :=
  {| id := toString (now env);
     type := "Accident Detected";
     severity := high;
     location := ("Intersection " ++
                  toString (Math_floor (random env 0 * 100)))%string;
     coordinates := None;
     description := None;
     timestamp := isoTime env;
     status := Some active;
     responders := None |}.

(** [data.prediction === 'Accident' && data.confidence > 90 &&
     !alerts.some(a => a.type === 'Accident Detected')] *)
Definition Dashboard_newAlert (env : Env) (data : Payload)
    (alerts : list Alert) : option Alert :=
  if accident_detected data &&
     negb (existsb (fun a => String.eqb (type a) "Accident Detected") alerts)
  then Some (dashboard_alert env)
  else None.

(** The [if] on the prediction: the guard reads the [alerts] of the
    closure, [addAlert] is applied to the latest list of the store. *)
Definition ingest_prediction (env : Env) (data : Payload) (st : SmartCityState)
    : SmartCityState :=
  match Dashboard_newAlert env data (alerts_seen env) with
  | Some a => setAlerts (addAlert a) st
  | None => st
  end.

(** [setAiLatency(30 + Math.random() * 30)]; the draw is the first one when
    no alert was built and the second one otherwise.  The code rounds the
    product and the sum; for a draw close to 1 the rounded sum is 60. *)
Definition set_latency (env : Env) (data : Payload) (before : list Alert)
    (d : DashboardState) : DashboardState :=
  let k := match Dashboard_newAlert env data before with
           | Some _ => 1 | None => 0 end in
  mkDashboard (powerHistory d) (savingsHistory d) (occupancyHistory d)
              (30 + random env k * 30)%Q (activeFeeds d).

(** [eventSource.onmessage] of [Dashboard]: [JSON.parse] is called outside
    of any [try], so its [SyntaxError] leaves the handler. *)
Definition Dashboard_onmessage (env : Env) (msg : MessageData)
    (s : SmartCityState * DashboardState)
    : Completion (SmartCityState * DashboardState) :=
  match msg with
  | Malformed text => Throw (SyntaxError text)
  | Json data =>
      let s1 := (ingest_streetlights data (fst s), snd s) in
      let s2 := ingest_metrics env data s1 in
      let st3 := ingest_prediction env data (fst s2) in
      Normal (st3, set_latency env data (alerts_seen env) (snd s2)) []
  end.

(** ** The store as a transition system *)

(** What can happen to the store between two renders: a stream record
    reaches one of the two handlers, the operator clicks "Send Response"
    (the optimistic part runs), an issued request completes (the code after
    the [await], for either button; "Request Ambulance" touches the store
    only there), or some component calls [updateAlert]. *)
Inductive Action :=
| Stream_EmergencyAlerts (env : Env) (msg : MessageData)
| Stream_Dashboard (env : Env) (msg : MessageData)
| Click_SendResponse (card : Alert)
| Settle (alertId : string) (o : FetchOutcome)
| Update (alertId : string) (updates : PartialAlert).

Definition Store : Type := SmartCityState * DashboardState.

Definition initial_store : Store := (initial_state, initial_dashboard).

Definition on_alerts (f : list Alert -> list Alert) (s : Store) : Store :=
  (setAlerts f (fst s), snd s).

Definition step (s : Store) (a : Action) : Store :=
  match a with
  | Stream_EmergencyAlerts env msg =>
      on_alerts (fun l => state_after l (EmergencyAlerts_onmessage env msg l)) s
  | Stream_Dashboard env msg => state_after s (Dashboard_onmessage env msg s)
  | Click_SendResponse card => on_alerts (SendResponse_optimistic card) s
  | Settle alertId o => on_alerts (settle alertId o) s
  | Update alertId updates => on_alerts (updateAlert alertId updates) s
  end.

Definition run (s : Store) (acts : list Action) : Store := fold_left step acts s.

(** The alert an action creates in a given store, if any; whether one is
    created is decided on the list the handler sees. *)
Definition created (s : Store) (a : Action) : option Alert :=
  match a with
  | Stream_EmergencyAlerts env (Json data) =>
      EmergencyAlerts_newAlert env data (alerts_seen env)
  | Stream_Dashboard env (Json data) =>
      Dashboard_newAlert env data (alerts_seen env)
  | _ => None
  end.

(** All alerts created along a run, oldest first. *)
Fixpoint creations (s : Store) (acts : list Action) : list Alert :=
  match acts with
  | [] => []
  | a :: rest =>
      match created s a with
      | Some x => x :: creations (step s a) rest
      | None => creations (step s a) rest
      end
  end.

(** The value of [Date.now()] in the handler invocation of an action. *)
Definition clock_reading (a : Action) : option Z :=
  match a with
  | Stream_EmergencyAlerts env _ | Stream_Dashboard env _ => Some (now env)
  | _ => None
  end.

(** The clock readings at which the alerts of a run were created, oldest
    first. *)
Fixpoint creation_readings (s : Store) (acts : list Action) : list Z :=
  match acts with
  | [] => []
  | a :: rest =>
      match created s a, clock_reading a with
      | Some _, Some t => t :: creation_readings (step s a) rest
      | _, _ => creation_readings (step s a) rest
      end
  end.

(** The number of alerts of kind [accident] in status [active]. *)
Definition active_accidents (l : list Alert) : nat :=
  length (List.filter is_active_accident l).

(** An update that provides the status [active] or the kind [accident]. *)
Definition activates (u : PartialAlert) : bool :=
  match p_status u with Some (Some active) => true | _ => false end ||
  match p_type u with Some t => String.eqb t "accident" | None => false end.

(** An action through which an alert can become an active accident
    without passing the creation guard: the completion of a request that
    was not acknowledged, or an update that [activates]. *)
Definition may_activate (a : Action) : bool :=
  match a with
  | Settle _ NetworkFailure => true
  | Settle _ (Response json) => negb (acknowledged json)
  | Update _ updates => activates updates
  | _ => false
  end.

(** The histories a run of the dashboard handler is fed with. *)
Definition metrics_of (a : Action) : option (Env * Metrics) :=
  match a with
  | Stream_Dashboard env (Json data) =>
      match pl_metrics data with
      | Some m => Some (env, m)
      | None => None
      end
  | _ => None
  end.

Definition appended (acts : list Action) : list (Env * Metrics) :=
  omap metrics_of acts.

(** The values of a snapshot that the data model declares as percentages. *)
Definition in_range (x : Q) : Prop := (0 <= x /\ x <= 100)%Q.

Definition percentages (m : Metrics) : list Q :=
  savings_vs_100 m :: savings_vs_70 m :: brightness_dist m.

(** ** Further parts of the components *)

(** *** [EmergencyAlerts.tsx]: the counters of the alert center *)

(** [alerts.filter(a => a.severity === 'critical').length] *)
Definition criticalAlerts (alerts : list Alert) : nat :=
  length (List.filter (fun a => bool_decide (severity a = critical)) alerts).

(** [alerts.filter(a => a.status === 'active').length] *)
Definition is_active (a : Alert) : bool :=
  match status a with Some active => true | _ => false end.

Definition activeAlerts (alerts : list Alert) : nat :=
  length (List.filter is_active alerts).

(** [alerts.filter(a => a.coordinates)]: the alerts drawn on the map. *)
Definition map_markers (alerts : list Alert) : list Alert :=
  List.filter (fun a => match coordinates a with Some _ => true | None => false end)
              alerts.

(** *** [Dashboard.tsx]: the brightness histogram *)

Definition brightnessBins : list Z := [0; 10; 20; 30; 40; 50; 60; 70; 80; 90; 100]%Z.

(** [Math.min(Math.floor(b / 10), 9)].  The index is the code's for every
    [b >= 0]; a negative [b] gives a negative index here, and in the code
    as well unless [b] is so close to 0 that its tenth is rounded to zero
    (every [b <= -1] is far from that). *)
Definition binIndex (b : Q) : Z := Z.min (Math_floor (b / 10)) 9.

(** [counts[i]++] on an array of counters.  A negative [i] is not an
    index: the statement then writes a property of the array object and
    leaves its elements and its length alone.  ([i] never exceeds 9 here,
    so the array is never extended.) *)
Definition increment (counts : list nat) (i : Z) : list nat :=
  if (i <? 0)%Z then counts else alter S (Z.to_nat i) counts.

(** [new Array(brightnessBins.length - 1).fill(0)], then the [forEach]. *)
Definition brightnessCounts (dist : list Q) : list nat :=
  fold_left (fun counts b => increment counts (binIndex b)) dist
            (replicate (length brightnessBins - 1) 0).

(** [brightnessBins.slice(0, -1).map(b => `${b}-${b + 10}%`)] *)
Definition brightnessLabels : list string :=
  map (fun b => (toString b ++ "-" ++ toString (b + 10) ++ "%")%string)
      (slice 0 (Some (-1)%Z) brightnessBins).

(** *** [Dashboard.tsx]: the data of the two line charts *)

(** A dataset of a chart; the colours and line styles, which are
    constants of the source, are left out. *)
Record Dataset := mkDataset { ds_label : string; ds_data : list Q }.
Record ChartData := mkChart { labels : list string; datasets : list Dataset }.

Definition activeVsBaselineData (d : DashboardState) : ChartData :=
  mkChart (map pw_time (powerHistory d))
    [ mkDataset "Active Power (W)" (map pw_active (powerHistory d));
      mkDataset "Baseline (100%)" (map pw_base100 (powerHistory d));
      mkDataset "Baseline (70%)" (map pw_base70 (powerHistory d)) ].

Definition savingsData (d : DashboardState) : ChartData :=
  mkChart (map sv_time (savingsHistory d))
    [ mkDataset "Savings vs 100%" (map sv_sav100 (savingsHistory d));
      mkDataset "Savings vs 70%" (map sv_sav70 (savingsHistory d)) ].

(** *** [SmartCitySimulation.tsx]: the lamp health dashboard *)

Inductive LampStatus := Operational | Degraded | Critical.

#[global] Instance LampStatus_eq_dec : EqDecision LampStatus.
Proof. solve_decision. Defined.

Record Incident := mkIncident { inc_ts : string; inc_msg : string }.

Record Lamp := mkLamp {
  lamp_id : string;
  code : string;
  district : string;
  health : Q;
  lamp_status : LampStatus;
  online : bool;
  lastUpdate : Z;
  brightnessResponse : Q;
  uptime : Q;
  incidents : list Incident;
  latencyMs : Q
}.

(** [Math.round(x)]: the nearest integer, the larger one on a tie. *)
Definition Math_round (x : Q) : Z := Qfloor (x + (1 # 2)).

(** The body of the [map] callback for an online lamp; [jitter_draw] and
    [latency_draw] are its two draws of [Math.random()], [t] is its
    reading of [Date.now()]. *)
Definition jittered (l : Lamp) (jitter_draw latency_draw : Q) (t : Z) : Lamp :=
  let jitter := ((jitter_draw - 0.5) * 2)%Q in
  let nh := Z.max 50 (Z.min 100 (Math_round (health l + jitter))) in
  {| lamp_id := lamp_id l; code := code l; district := district l;
     health := inject_Z nh;
     lamp_status := lamp_status l; online := online l;
     lastUpdate := t;
     brightnessResponse := brightnessResponse l; uptime := uptime l;
     incidents := incidents l;
     latencyMs := inject_Z (Z.max 50 (Math_round (100 + latency_draw * 200))) |}.

(** [prev.map(l => { if (!l.online) return l; ... })]: the [k]-th online
    lamp takes the draws [2k] and [2k + 1] and the [k]-th clock reading;
    an offline lamp takes none. *)
Fixpoint tick_from (k : nat) (draws : nat -> Q) (clock : nat -> Z)
    (lamps : list Lamp) : list Lamp :=
  match lamps with
  | [] => []
  | l :: rest =>
      if negb (online l) then l :: tick_from k draws clock rest
      else jittered l (draws (2 * k)) (draws (2 * k + 1)) (clock k)
             :: tick_from (S k) draws clock rest
  end.

(** One firing of the interval timer. *)
Definition tick (draws : nat -> Q) (clock : nat -> Z) (lamps : list Lamp)
    : list Lamp :=
  tick_from 0 draws clock lamps.

(** The lamps the component starts with, for a clock reading [now]; the
    time stamps of the incidents are [new Date(...).toISOString()] of the
    given instants and are passed in. *)
Definition initial_lamps (now : Z) (ts2 ts3 ts4 : string) : list Lamp :=
  [ mkLamp "1" "SL-001" "Downtown" 98 Operational true (now - 30 * 1000)
           99 99.9 [] 120;
    mkLamp "2" "SL-002" "Shopping District" 91 Operational true
           (now - 75 * 1000) 96 98.7
           [mkIncident ts2 "Temporary fallback to fixed brightness"] 180;
    mkLamp "3" "SL-003" "Residential" 84 Degraded true (now - 5 * 60 * 1000)
           70 92.1 [mkIncident ts3 "Lost comms briefly"] 420;
    mkLamp "4" "SL-004" "Industrial" 60 Critical false (now - 60 * 60 * 1000)
           20 78.4 [mkIncident ts4 "Power-cycle detected, unreachable"] 0 ].

(** The [aggregated] memo.  [avgHealth] is [Math.round(sum / total)],
    which is [NaN] ([None]) for an empty list. *)
Record Aggregated := mkAggregated {
  agg_total : nat;
  agg_online : nat;
  agg_issues : nat;
  agg_avgHealth : option Z
}.

Definition has_issue (l : Lamp) : bool :=
  negb (bool_decide (lamp_status l = Operational)) || negb (online l).

Definition aggregated (lamps : list Lamp) : Aggregated :=
  let total := length lamps in
  mkAggregated total
    (length (List.filter online lamps))
    (length (List.filter has_issue lamps))
    (match total with
     | O => None
     | _ => Some (Math_round
                    (fold_left (fun s x => s + health x) lamps 0
                     / inject_Z (Z.of_nat total))%Q)
     end).

(** *** [websocket.ts]: the listener registry of [WebSocketService] *)

(** A registered callback is identified by a number (two callbacks are
    the same member of a [Set] when they are the same function object).
    A [Set] is its members in insertion order. *)
Definition CallbackSet := list nat.

Definition Set_add (cb : nat) (s : CallbackSet) : CallbackSet :=
  if bool_decide (cb ∈ s) then s else s ++ [cb].

Definition Set_delete (cb : nat) (s : CallbackSet) : CallbackSet :=
  filter (fun x => x <> cb) s.

(** [socket] is [null] ([None]) or a socket with its [connected] flag. *)
Record WebSocketService := mkService {
  socket : option bool;
  listeners : gmap string CallbackSet
}.

(** [on(event, callback)] *)
Definition ws_on (event : string) (cb : nat) (w : WebSocketService)
    : WebSocketService :=
  let m := match listeners w !! event with
           | Some _ => listeners w
           | None => <[event := []]> (listeners w)
           end in
  mkService (socket w) (alter (Set_add cb) event m).

(** [off(event, callback)] *)
Definition ws_off (event : string) (cb : nat) (w : WebSocketService)
    : WebSocketService :=
  match listeners w !! event with
  | Some s => mkService (socket w) (<[event := Set_delete cb s]> (listeners w))
  | None => w
  end.

(** [disconnect()] *)
Definition ws_disconnect (w : WebSocketService) : WebSocketService :=
  mkService None ∅.

(** [notifyListeners(event, data)]: the callbacks that are called, in
    order, and the lines written to the console; [throws cb] tells whether
    the callback raises on the data.  Each call is inside its own [try].
    What a callback does besides returning or raising is outside the
    service. *)
Fixpoint forEach_try (throws : nat -> bool) (s : CallbackSet)
    : list nat * list string :=
  match s with
  | [] => ([], [])
  | cb :: rest =>
      let r := forEach_try throws rest in
      (cb :: fst r,
       if throws cb then "Error in WebSocket listener:" :: snd r else snd r)
  end.

Definition notifyListeners (throws : nat -> bool) (event : string)
    (w : WebSocketService) : list nat * list string :=
  match listeners w !! event with
  | Some s => forEach_try throws s
  | None => ([], [])
  end.

(** [emit(event, data)]: what is handed to the socket. *)
Definition ws_emit (event : string) (data : string) (w : WebSocketService)
    : list (string * string) :=
  match socket w with
  | Some true => [(event, data)]
  | _ => []
  end.

Inductive RegistryOp :=
| Op_on (event : string) (cb : nat)
| Op_off (event : string) (cb : nat)
| Op_disconnect.

Definition apply_op (w : WebSocketService) (op : RegistryOp) : WebSocketService :=
  match op with
  | Op_on e cb => ws_on e cb w
  | Op_off e cb => ws_off e cb w
  | Op_disconnect => ws_disconnect w
  end.

(** The service as constructed: no socket, no listeners. *)
Definition new_service : WebSocketService := mkService None ∅.

(** *** [api.ts]: the token and the request headers of [ApiService] *)

(** The service's [token] and the [access_token] item of [localStorage];
    [None] is [null]. *)
Record ApiState := mkApi {
  api_token : option string;
  stored_token : option string
}.

(** [new ApiService()]: the token is read from the storage. *)
Definition ApiService_new (storage : option string) : ApiState :=
  mkApi storage storage.

(** A string or [null] used as a condition: [null] and [""] are falsy. *)
Definition truthy (s : option string) : bool :=
  match s with
  | Some t => negb (String.eqb t "")
  | None => false
  end.

(** `${token}` *)
Definition interpolate (token : option string) : string :=
  match token with Some t => t | None => "null" end.

(** The headers [request] sends; [caller] is [options.headers], a plain
    object.  In the object literal the caller's entries come after the
    default content type and so replace it; the authorization is assigned
    last. *)
Definition request_headers (st : ApiState) (caller : gmap string string)
    : gmap string string :=
  let headers := caller ∪ {["Content-Type" := "application/json"]} in
  if truthy (api_token st)
  then <["Authorization" := ("Bearer " ++ interpolate (api_token st))%string]> headers
  else headers.

(** The headers [detectImage] sends. *)
Definition detectImage_headers (st : ApiState) : gmap string string :=
  {["Authorization" := ("Bearer " ++ interpolate (api_token st))%string]}.

(** How the request of [login] ends: [fetch] rejects, the response is not
    [ok] and [request] throws, or the body is decoded, with or without an
    [access_token]. *)
Inductive LoginResponse :=
| Unreachable (message : string)
| NotOk (statusText : string)
| LoggedIn (access_token : option string).

Inductive ApiResult (S : Type) :=
| Resolved (s : S)
| Rejected (message : string).
Arguments Resolved {S} s.
Arguments Rejected {S} message.

(** [login(username, password)] *)
Definition api_login (r : LoginResponse) (st : ApiState) : ApiResult ApiState :=
  match r with
  | Unreachable message => Rejected message
  | NotOk statusText => Rejected ("API Error: " ++ statusText)%string
  | LoggedIn tok =>
      if truthy tok then Resolved (mkApi tok tok) else Resolved st
  end.

(** [logout()] *)
Definition api_logout (st : ApiState) : ApiState := mkApi None None.

Inductive ApiCall :=
| Call_login (r : LoginResponse)
| Call_logout.

(** The state a call leaves behind; a rejected [login] has changed
    nothing. *)
Definition api_step (st : ApiState) (c : ApiCall) : ApiState :=
  match c with
  | Call_login r => match api_login r st with
                    | Resolved st' => st'
                    | Rejected _ => st
                    end
  | Call_logout => api_logout st
  end.

(** ** Further vocabulary *)




(** The updates of one followed by the updates of the other:
    [{ ...u, ...v }]. *)
Definition then_updates (u v : PartialAlert) : PartialAlert :=
  {| p_id := match p_id v with Some x => Some x | None => p_id u end;
     p_type := match p_type v with Some x => Some x | None => p_type u end;
     p_severity := match p_severity v with Some x => Some x | None => p_severity u end;
     p_location := match p_location v with Some x => Some x | None => p_location u end;
     p_coordinates := match p_coordinates v with Some x => Some x | None => p_coordinates u end;
     p_description := match p_description v with Some x => Some x | None => p_description u end;
     p_timestamp := match p_timestamp v with Some x => Some x | None => p_timestamp u end;
     p_status := match p_status v with Some x => Some x | None => p_status u end;
     p_responders := match p_responders v with Some x => Some x | None => p_responders u end |}.

(** The lamps after [n] firings of the timer; the firing [j] takes its
    draws and clock readings from [draws j] and [clock j]. *)
Fixpoint ticks (n : nat) (draws : nat -> nat -> Q) (clock : nat -> nat -> Z)
    (lamps : list Lamp) : list Lamp :=
  match n with
  | O => lamps
  | S m => tick (draws m) (clock m) (ticks m draws clock lamps)
  end.

(** A lamp whose health is the whole number [h]. *)
Definition whole_health (l : Lamp) (h : Z) : Prop := health l = inject_Z h.

(** The alerts with a given id that are neither [active] nor
    [investigating]. *)
Definition reopened (alertId : string) (l : list Alert) : nat :=
  length (List.filter (fun a => String.eqb (id a) alertId && negb (is_open a)) l).

Definition is_investigating (a : Alert) : bool :=
  match status a with Some investigating => true | _ => false end.

(** The callbacks a notification of [event] calls, in order. *)
Definition called (event : string) (w : WebSocketService) : list nat :=
  fst (notifyListeners (fun _ => false) event w).

(** The list the guard of a handler looks at in an action. *)
Definition seen_by_alert_center (a : Action) : option (list Alert) :=
  match a with
  | Stream_EmergencyAlerts env _ => Some (alerts_seen env)
  | _ => None
  end.


(** Along the run, every record reaches the handler after React has
    rendered the latest alert list: the list the guard looks at is the
    list of the store. *)
Fixpoint in_sync (seen : Action -> option (list Alert)) (s : Store)
    (acts : list Action) : Prop :=
  match acts with
  | [] => True
  | a :: rest =>
      match seen a with
      | Some l => l = alerts (fst s)
      | None => True
      end /\ in_sync seen (step s a) rest
  end.

(** The callbacks registered for [e] and not removed since, in the order
    of their registration, after one more operation on the registry. *)
Definition registered_after (e : string) (acc : list nat) (op : RegistryOp)
    : list nat :=
  match op with
  | Op_on e' cb =>
      if decide (e' = e)
      then (if decide (cb ∈ acc) then acc else acc ++ [cb])
      else acc
  | Op_off e' cb =>
      if decide (e' = e) then filter (fun x => x <> cb) acc else acc
  | Op_disconnect => []
  end.

Definition registration_order (e : string) (ops : list RegistryOp) : list nat :=
  fold_left (registered_after e) ops [].

(** ** Vocabulary of the statements *)

(** A provided field takes the provided value, a field that is not
    provided keeps its value. *)
Definition field_merged {T : Type} (old : T) (provided : option T) (new : T)
    : Prop :=
  match provided with
  | Some v => new = v
  | None => new = old
  end.

Definition merged (a : Alert) (u : PartialAlert) (a' : Alert) : Prop :=
  field_merged (id a) (p_id u) (id a') /\
  field_merged (type a) (p_type u) (type a') /\
  field_merged (severity a) (p_severity u) (severity a') /\
  field_merged (location a) (p_location u) (location a') /\
  field_merged (coordinates a) (p_coordinates u) (coordinates a') /\
  field_merged (description a) (p_description u) (description a') /\
  field_merged (timestamp a) (p_timestamp u) (timestamp a') /\
  field_merged (status a) (p_status u) (status a') /\
  field_merged (responders a) (p_responders u) (responders a').

(** The draws of [Math.random()] lie in [[0, 1)]. *)
Definition unit_draws (env : Env) : Prop :=
  forall k, (0 <= random env k /\ random env k < 1)%Q.

(** Every draw of [Math.random()] in the handler invocation of an action
    lies in [[0, 1)]. *)
Definition draws_in_unit (a : Action) : Prop :=
  match a with
  | Stream_EmergencyAlerts env _ | Stream_Dashboard env _ => unit_draws env
  | _ => True
  end.

(** The responder service answered and the body carries [status: "ok"]. *)
Definition ok_response (o : FetchOutcome) : Prop :=
  exists b, o = Response (Some b) /\ rb_status b = Some "ok".

(** The outcome decides the final status: [investigating] exactly for an
    ["ok"] response. *)
Definition final_status (o : FetchOutcome) (s : option Status) : Prop :=
  (ok_response o -> s = Some investigating) /\
  (~ ok_response o -> s = Some active).

(** The chart points built from an appended pair. *)
Definition power_of (p : Env * Metrics) : PowerPoint :=
  power_point (fst p) (snd p).
Definition savings_of (p : Env * Metrics) : SavingsPoint :=
  savings_point (fst p) (snd p).
Definition occupancy_of (p : Env * Metrics) : OccupancyPoint :=
  occupancy_point (snd p).

(** ** Concrete inputs *)

(** The surroundings of a handler at clock reading [t] when the last
    committed render showed the alerts [seen]; every draw of
    [Math.random()] is one half. *)
Definition env_seeing (t : Z) (seen : list Alert) : Env :=
  mkEnv t (fun _ => (1 # 2)%Q) "10:00:00" "" seen.

(** The same when no alert has been rendered yet. *)
Definition env_at (t : Z) : Env := env_seeing t [].

(** The record [{ prediction: "Accident", confidence: 95 }]. *)
Definition accident_record : MessageData :=
  Json (mkPayload (Some "Accident") (Some 95%Q) None None).

(** The alert raised for it at clock reading 1000. *)
Definition first_alert : Alert := accident_alert (env_at 1000) 95.

(** The alert list once the operator has clicked "Send Response" on it. *)
Definition after_click : list Alert :=
  SendResponse_optimistic first_alert [first_alert].

(** An accident is detected, the operator sends a response, a second
    accident record arrives while the request is in flight, and the request
    fails.  Every record is handled after the list has been rendered. *)
Definition failed_dispatch_run : list Action :=
  [ Stream_EmergencyAlerts (env_at 1000) accident_record;
    Click_SendResponse first_alert;
    Stream_EmergencyAlerts (env_seeing 2000 after_click) accident_record;
    Settle "1000" NetworkFailure ].

(** Both handlers raise their alert for one record, then the kind of the
    dashboard's alert is updated to [accident].  Every record is handled
    after the list has been rendered. *)
Definition retyped_run : list Action :=
  [ Stream_Dashboard (env_at 1000) accident_record;
    Stream_EmergencyAlerts
      (env_seeing 2000 [dashboard_alert (env_at 1000)]) accident_record;
    Update "1000" (mkPartial None (Some "accident") None None None None None
                     None None) ].

(** An accident alert is raised, the operator's click moves it to
    [investigating], and a second accident record is handled at the same
    clock reading, after the list has been rendered. *)
Definition repeated_reading_run : list Action :=
  [ Stream_EmergencyAlerts (env_at 1000) accident_record;
    Click_SendResponse first_alert;
    Stream_EmergencyAlerts (env_seeing 1000 after_click) accident_record ].

(** Two accident records are handled one right after the other, the second
    before React has rendered the alert raised for the first:
    [alertsRef.current] is still the empty list. *)
Definition back_to_back_run : list Action :=
  [ Stream_EmergencyAlerts (env_at 1000) accident_record;
    Stream_EmergencyAlerts (env_at 1001) accident_record ].

(** The alert list once the responder service has acknowledged an
    ambulance requested for the first alert: the alert is
    [investigating]. *)
Definition after_acknowledgement : list Alert :=
  RequestAmbulance_onClick first_alert
    (Response (Some (mkBody (Some "ok")))) [first_alert].

(** One record reaches both handlers at the same clock reading. *)
Definition shared_record_run : list Action :=
  [ Stream_Dashboard (env_at 1000) accident_record;
    Stream_EmergencyAlerts (env_at 1000) accident_record ].

(** A snapshot whose values leave the range of a percentage. *)
Definition out_of_range_record : MessageData :=
  Json (mkPayload None None
          (Some [mkStreetlight "L1" 150 "active"])
          (Some (mkMetrics 40 100 70 120 (-5) [150%Q; 30%Q] 3 2 1 10))).

(** Two responses of the responder service. *)
Definition ok_body : FetchOutcome := Response (Some (mkBody (Some "ok"))).
Definition error_body : FetchOutcome := Response (Some (mkBody (Some "error"))).

(** Twenty-five metrics records whose active power is their position. *)
Definition metrics_record (i : nat) : Action :=
  let v := inject_Z (Z.of_nat i) in
  Stream_Dashboard (env_at (Z.of_nat i))
    (Json (mkPayload None None None
             (Some (mkMetrics v 100 70 v v [v] 0 0 0 v)))).

Definition metrics_run_25 : list Action := metrics_record <$> seq 1 25.

(** * Properties *)

(** ** [slice] *)

Section Slice.
Context {A : Type}.
Implicit Types l : list A.

Lemma slice_prefix (n : nat) l :
  slice 0 (Some (Z.of_nat n)) l = take n l.
Proof.
  unfold slice, relative_index. simpl.
  destruct (Z.of_nat n <? 0)%Z eqn:E; [apply Z.ltb_lt in E; lia|].
  rewrite Nat2Z.id, Nat.sub_0_r.
  destruct (Nat.le_ge_cases n (length l)) as [H|H].
  - by rewrite Nat.min_l.
  - rewrite Nat.min_r by done. by rewrite !take_ge.
Qed.

Lemma slice_suffix (n : nat) l :
  0 < n -> slice (- Z.of_nat n) None l = drop (length l - n) l.
Proof.
  intros Hn. unfold slice, relative_index.
  destruct (- Z.of_nat n <? 0)%Z eqn:E; [|apply Z.ltb_ge in E; lia].
  replace (Z.to_nat (Z.max (Z.of_nat (length l) + - Z.of_nat n) 0))
    with (length l - n) by lia.
  apply take_ge. rewrite length_drop. lia.
Qed.

Lemma push_history_drop (n : nat) (x : A) l :
  0 < n ->
  push_history (Z.of_nat n) x l = drop (S (length l) - n) (l ++ [x]).
Proof.
  intros Hn. unfold push_history. rewrite slice_suffix by done.
  by rewrite length_app, Nat.add_1_r.
Qed.

(** Pushing onto the kept suffix of a sequence keeps the suffix of the
    extended sequence. *)
Lemma push_history_suffix (n : nat) (x : A) (xs : list A) :
  0 < n ->
  push_history (Z.of_nat n) x (drop (length xs - n) xs)
  = drop (length (xs ++ [x]) - n) (xs ++ [x]).
Proof.
  intros Hn. rewrite push_history_drop by done.
  rewrite length_drop, length_app. simpl.
  destruct (Nat.le_gt_cases (length xs) n) as [H|H].
  - replace (length xs - n) with 0 by lia. simpl.
    f_equal. lia.
  - replace (S (length xs - (length xs - n)) - n) with 1 by lia.
    replace (length xs + 1 - n) with (S (length xs - n)) by lia.
    rewrite !drop_app_le by (rewrite ?length_drop; lia).
    rewrite drop_drop. f_equal. f_equal. lia.
Qed.
End Slice.

Lemma addAlert_take (a : Alert) (l : list Alert) :
  addAlert a l = take 20 (a :: l).
Proof. unfold addAlert. by rewrite <- (slice_prefix 20). Qed.

(** ** [toString] *)

Lemma toString_inj (m n : Z) : toString m = toString n -> m = n.
Proof.
  unfold toString. intros H.
  assert (Some (Z.to_int m) = Some (Z.to_int n)) as E
    by (rewrite <- !NilEmpty.isi; by rewrite H).
  injection E as E.
  rewrite <- (DecimalZ.of_to m), <- (DecimalZ.of_to n). by rewrite E.
Qed.

(** ** [updateAlert] *)

Lemma spread_merged (a : Alert) (u : PartialAlert) : merged a u (spread a u).
Proof.
  destruct u as [i t s l c d ts st r].
  destruct i, t, s, l, c, d, ts, st, r; repeat split.
Qed.

Lemma updateAlert_lookup (alertId : string) (u : PartialAlert)
    (l : list Alert) (i : nat) :
  updateAlert alertId u l !! i =
  (fun a => if String.eqb (id a) alertId then spread a u else a) <$> l !! i.
Proof. unfold updateAlert. apply list_lookup_fmap. Qed.

Lemma updateAlert_length (alertId : string) (u : PartialAlert) (l : list Alert) :
  length (updateAlert alertId u l) = length l.
Proof. unfold updateAlert. apply length_map. Qed.

Lemma updateAlert_unknown (alertId : string) (u : PartialAlert) (l : list Alert) :
  (forall a, a ∈ l -> id a <> alertId) -> updateAlert alertId u l = l.
Proof.
  unfold updateAlert. induction l as [|x l IH]; intros H; simpl; [done|].
  destruct (String.eqb_spec (id x) alertId) as [E|E].
  - exfalso. apply (H x); [left | done].
  - f_equal. apply IH. intros a Ha. apply H. by right.
Qed.

(** C8. [updateAlert(alertId, updates)]: when no alert of the list carries
    the id the list is returned as it is; otherwise the list keeps its
    length and its order, an alert that carries the id has the provided
    fields replaced and its other fields kept, and an alert with another
    id is kept as it is. *)
Theorem updateAlert_merges_or_ignores
    (alertId : string) (updates : PartialAlert) (l : list Alert) :
  ((forall a, a ∈ l -> id a <> alertId) -> updateAlert alertId updates l = l) /\
  length (updateAlert alertId updates l) = length l /\
  (forall i a, l !! i = Some a ->
     exists a', updateAlert alertId updates l !! i = Some a' /\
                (id a = alertId -> merged a updates a') /\
                (id a <> alertId -> a' = a)).
Proof.
  split; [apply updateAlert_unknown|].
  split; [apply updateAlert_length|].
  intros i a Hi. rewrite updateAlert_lookup, Hi. simpl.
  destruct (String.eqb_spec (id a) alertId) as [E|E].
  - exists (spread a updates). split; [done|].
    split; [intros _; apply spread_merged | done].
  - exists a. by repeat split.
Qed.

(** ** [activeIncidents] *)

Lemma is_open_iff (a : Alert) :
  is_open a = true <-> status a = Some active \/ status a = Some investigating.
Proof.
  unfold is_open. destruct (status a) as [[]|]; split; intros H;
    try done; try (by left); try (by right); by destruct H.
Qed.

Lemma activeIncidents_app (l1 l2 : list Alert) :
  activeIncidents (l1 ++ l2) = activeIncidents l1 + activeIncidents l2.
Proof. unfold activeIncidents. by rewrite List.filter_app, length_app. Qed.

Lemma activeIncidents_cons (a : Alert) (l : list Alert) :
  activeIncidents (a :: l)
  = (if is_open a then 1 else 0) + activeIncidents l.
Proof. unfold activeIncidents. simpl. by destruct (is_open a). Qed.

(** C10. The derived [activeIncidents] of an alert list is the number of
    its alerts whose status is [active] or [investigating]: such an alert
    adds one to the count wherever it stands in the list, and an alert that
    is [resolved] or has no status adds nothing. *)
Theorem activeIncidents_counts_open_alerts (l : list Alert) :
  activeIncidents l
  = length (filter (fun a => status a = Some active \/
                             status a = Some investigating) l) /\
  (forall l1 a l2, l = l1 ++ a :: l2 ->
     (status a = Some active \/ status a = Some investigating ->
      activeIncidents l = S (activeIncidents (l1 ++ l2))) /\
     (status a = Some resolved \/ status a = None ->
      activeIncidents l = activeIncidents (l1 ++ l2))).
Proof.
  split.
  - unfold activeIncidents. induction l as [|x l IH]; [done|].
    simpl. rewrite filter_cons.
    destruct (decide _) as [D|D]; apply is_open_iff in D || idtac.
    + rewrite D. simpl. by rewrite IH.
    + destruct (is_open x) eqn:E; [by apply is_open_iff in E|done].
  - intros l1 a l2 ->. rewrite !activeIncidents_app.
    rewrite activeIncidents_cons.
    split; intros H.
    + apply is_open_iff in H. rewrite H. lia.
    + assert (is_open a = false) as ->
        by (unfold is_open; destruct H as [-> | ->]; done).
      lia.
Qed.

(** ** The alert reconciler *)

Lemma num_gt_iff (x y : Q) : num_gt x y = true <-> (y < x)%Q.
Proof.
  unfold num_gt. rewrite negb_true_iff.
  destruct (Qle_bool x y) eqn:E.
  - apply Qle_bool_iff in E. split; [done|]. intros H.
    exfalso. by apply (Qlt_not_le y x).
  - split; [|done]. intros _. apply Qnot_le_lt. intros H.
    apply Qle_bool_iff in H. congruence.
Qed.

Lemma is_active_accident_iff (a : Alert) :
  is_active_accident a = true <-> type a = "accident" /\ status a = Some active.
Proof.
  unfold is_active_accident. rewrite andb_true_iff, String.eqb_eq.
  destruct (status a) as [[]|]; split; intros [H1 H2]; done.
Qed.

Lemma already_iff (l : list Alert) :
  already l = true <->
  exists a, a ∈ l /\ type a = "accident" /\ status a = Some active.
Proof.
  unfold already. rewrite existsb_exists. split.
  - intros (a & Hin & H). exists a. split; [by apply list_elem_of_In|].
    by apply is_active_accident_iff.
  - intros (a & Hin & H). exists a. split; [by apply list_elem_of_In|].
    by apply is_active_accident_iff.
Qed.

Lemma accident_detected_iff (data : Payload) :
  accident_detected data = true <->
  prediction data = Some "Accident" /\
  exists c, confidence data = Some c /\ (90 < c)%Q.
Proof.
  unfold accident_detected.
  destruct (prediction data) as [p|], (confidence data) as [c|];
    try (split; [done | by intros [? (c' & ? & ?)]]).
  rewrite andb_true_iff, String.eqb_eq, num_gt_iff. split.
  - intros [-> H]. split; [done|]. by exists c.
  - intros [[= ->] (c' & [= ->] & H)]. done.
Qed.

Lemma seeded_responders (env : Env) :
  unit_draws env ->
  (1 <= Math_floor (random env 3 * 3) + 1 <= 3)%Z.
Proof.
  intros H. destruct (H 3) as [H0 H1]. unfold Math_floor.
  assert (0 <= Qfloor (random env 3 * 3))%Z.
  { change 0%Z with (Qfloor 0). apply Qfloor_resp_le.
    apply Qmult_le_0_compat; [done|]. by compute. }
  assert (Qfloor (random env 3 * 3) < 3)%Z.
  { rewrite Zlt_Qlt. eapply Qle_lt_trans; [apply Qfloor_le|].
    change (inject_Z 3) with (1 * 3)%Q.
    apply Qmult_lt_r; [by compute | done]. }
  lia.
Qed.

Lemma accident_alert_responders (env : Env) (c : Q) :
  unit_draws env ->
  exists r, responders (accident_alert env c) = Some r /\ (0 < r)%Q.
Proof.
  intros H. eexists. split; [reflexivity|].
  pose proof (seeded_responders env H) as B.
  change 1%Q with (inject_Z 1). rewrite <- inject_Z_plus.
  change 0%Q with (inject_Z 0). rewrite <- Zlt_Qlt. lia.
Qed.

(** What the handler does with a decoded record, in terms of the list its
    guard looks at: a record with prediction ["Accident"] and a confidence
    above 90, handled while [alertsRef.current] shows no active accident
    alert, puts one new alert at the front of the store's list, cut after
    twenty; any other record leaves the store's list as it was. *)
Lemma onPrediction_guards_on_what_it_sees
    (env : Env) (data : Payload) (prev : list Alert) :
  unit_draws env ->
  (forall c,
     prediction data = Some "Accident" -> confidence data = Some c ->
     (90 < c)%Q ->
     (forall a, a ∈ alerts_seen env ->
                ~ (type a = "accident" /\ status a = Some active)) ->
     exists a r,
       EmergencyAlerts_onmessage env (Json data) prev
       = Normal (a :: take 19 prev) [] /\
       type a = "accident" /\ status a = Some active /\
       severity a = critical /\ responders a = Some r /\ (0 < r)%Q) /\
  (prediction data <> Some "Accident" \/
   (forall c, confidence data = Some c -> (c <= 90)%Q) \/
   (exists a, a ∈ alerts_seen env /\ type a = "accident" /\
              status a = Some active) ->
   EmergencyAlerts_onmessage env (Json data) prev = Normal prev []).
Proof.
  intros Henv. split.
  - intros c Hp Hc H90 Hnone.
    destruct (accident_alert_responders env c Henv) as (r & Hr & Hpos).
    exists (accident_alert env c), r.
    assert (accident_detected data = true) as Hd
      by (apply accident_detected_iff; split; [done | by exists c]).
    assert (already (alerts_seen env) = false) as Ha.
    { destruct (already (alerts_seen env)) eqn:E; [|done].
      apply already_iff in E.
      destruct E as (a & Hin & H). by destruct (Hnone a Hin). }
    unfold EmergencyAlerts_onmessage, EmergencyAlerts_newAlert.
    rewrite Hc, Hd, Ha. simpl negb. cbv iota. rewrite addAlert_take.
    repeat split; done.
  - intros H. unfold EmergencyAlerts_onmessage, EmergencyAlerts_newAlert.
    destruct (confidence data) as [c|] eqn:Hc; [|done].
    destruct (accident_detected data) eqn:Hd; [|done].
    apply accident_detected_iff in Hd.
    destruct Hd as [Hp (c' & Hc' & H90)].
    destruct H as [H | [H | H]].
    + done.
    + exfalso. apply (Qlt_not_le _ _ H90). apply H. congruence.
    + apply already_iff in H. by rewrite H.
Qed.

(** C3. The guard of the handler looks at [alertsRef.current], which is
    the store's list only once React has rendered it.  A second accident
    record handled right after the first, while the store already holds the
    active alert raised for the first, still adds an alert, and the store
    then holds two active accident alerts.  A record handled right after
    the acknowledgement of an ambulance request, before the list has been
    rendered again, adds none, although no accident alert of the store is
    active. *)
Theorem stale_ref_defeats_the_guard :
  alerts (fst (step initial_store
                 (Stream_EmergencyAlerts (env_at 1000) accident_record)))
  = [first_alert] /\
  type first_alert = "accident" /\ status first_alert = Some active /\
  EmergencyAlerts_onmessage (env_at 1001) accident_record [first_alert]
  = Normal [accident_alert (env_at 1001) 95; first_alert] [] /\
  active_accidents (alerts (fst (run initial_store back_to_back_run))) = 2 /\
  active_accidents after_acknowledgement = 0 /\
  EmergencyAlerts_onmessage (env_seeing 2000 [first_alert]) accident_record
    after_acknowledgement
  = Normal after_acknowledgement [].
Proof. repeat split; vm_compute; reflexivity. Qed.

(** ** Dispatch *)

Lemma acknowledged_iff (json : option ResponseBody) :
  acknowledged json = true <-> ok_response (Response json).
Proof.
  unfold acknowledged, ok_response. split.
  - destruct json as [b|]; [|done]. destruct (rb_status b) as [s|] eqn:E; [|done].
    intros H. apply String.eqb_eq in H. subst s. by exists b.
  - intros (b & [= ->] & ->). done.
Qed.

Lemma network_failure_not_ok : ~ ok_response NetworkFailure.
Proof. by intros (b & H & _). Qed.

(** The status every alert with the id ends in, by outcome. *)
Lemma settle_ok (alertId : string) (o : FetchOutcome) (l : list Alert) :
  ok_response o -> settle alertId o l = updateAlert alertId (status_only investigating) l.
Proof.
  intros H. destruct o as [|json]; [by destruct network_failure_not_ok|].
  apply acknowledged_iff in H. simpl. by rewrite H.
Qed.

Lemma settle_failed (alertId : string) (o : FetchOutcome) (l : list Alert) :
  ~ ok_response o -> settle alertId o l = updateAlert alertId (status_only active) l.
Proof.
  intros H. destruct o as [|json]; [done|]. simpl.
  destruct (acknowledged json) eqn:E; [|done].
  by apply acknowledged_iff in E.
Qed.

Lemma updateAlert_own (card : Alert) (u : PartialAlert) (l : list Alert) (i : nat) :
  l !! i = Some card -> updateAlert (id card) u l !! i = Some (spread card u).
Proof.
  intros H. rewrite updateAlert_lookup, H. simpl. by rewrite String.eqb_refl.
Qed.

Lemma ok_response_dec (o : FetchOutcome) : ok_response o \/ ~ ok_response o.
Proof.
  destruct o as [|json]; [right; apply network_failure_not_ok|].
  destruct (acknowledged json) eqn:E.
  - left. by apply acknowledged_iff.
  - right. intros H. apply acknowledged_iff in H. congruence.
Qed.

(** C2, as the code has it.  "Send Response" ([action: 'dispatch']) on an
    alert of the list sets it to [investigating] with one responder more
    before the request is issued; the alert ends [investigating] after an
    ["ok"] response and [active] after any other response or a network
    failure, and keeps the incremented responders count in both cases.
    "Request Ambulance" ([action: 'ambulance']) leaves the list as it is
    until the response arrives and never changes the responders count; its
    final status follows the same rule.  For both buttons a network
    failure and a response that is not ["ok"] give the same list. *)
Theorem dispatch_by_action
    (card : Alert) (o : FetchOutcome) (l : list Alert) (i : nat) :
  l !! i = Some card ->
  (exists a, before_request action_dispatch card l !! i = Some a /\
             status a = Some investigating /\
             responders a = Some (or_zero (responders card) + 1)%Q) /\
  (exists a, dispatch action_dispatch card o l !! i = Some a /\
             final_status o (status a) /\
             responders a = Some (or_zero (responders card) + 1)%Q) /\
  before_request action_ambulance card l = l /\
  (exists a, dispatch action_ambulance card o l !! i = Some a /\
             final_status o (status a) /\
             responders a = responders card) /\
  (forall action json,
     ~ ok_response (Response json) ->
     dispatch action card NetworkFailure l = dispatch action card (Response json) l).
Proof.
  intros Hi.
  pose proof (updateAlert_own card
    (status_and_responders investigating (or_zero (responders card) + 1)%Q) l i Hi)
    as Hopt.
  split; [|split; [|split; [done|split]]].
  - eexists. split; [exact Hopt|]. by split.
  - unfold dispatch, SendResponse_onClick.
    destruct (ok_response_dec o) as [Hok|Hko].
    + rewrite settle_ok by done.
      change (id card) with
        (id (spread card (status_and_responders investigating
                            (or_zero (responders card) + 1)%Q))) at 1.
      eexists. split; [by apply updateAlert_own|].
      split; [by split|done].
    + rewrite settle_failed by done.
      change (id card) with
        (id (spread card (status_and_responders investigating
                            (or_zero (responders card) + 1)%Q))) at 1.
      eexists. split; [by apply updateAlert_own|].
      split; [by split|done].
  - unfold dispatch, RequestAmbulance_onClick.
    destruct (ok_response_dec o) as [Hok|Hko].
    + rewrite settle_ok by done.
      eexists. split; [by apply updateAlert_own|]. split; [by split|done].
    + rewrite settle_failed by done.
      eexists. split; [by apply updateAlert_own|]. split; [by split|done].
  - intros action json Hko.
    destruct action; unfold dispatch, SendResponse_onClick,
      RequestAmbulance_onClick;
      rewrite (settle_failed _ (Response json)) by done; done.
Qed.

(** ** Runs of the store *)

Lemma run_snoc (s : Store) (acts : list Action) (a : Action) :
  run s (acts ++ [a]) = step (run s acts) a.
Proof. unfold run. by rewrite fold_left_app. Qed.

(** The dashboard handler touches the alert list only through its own
    [addAlert]. *)
Lemma Dashboard_onmessage_alerts (env : Env) (data : Payload) (s : Store) :
  alerts (fst (state_after s (Dashboard_onmessage env (Json data) s)))
  = match Dashboard_newAlert env data (alerts_seen env) with
    | Some a => addAlert a (alerts (fst s))
    | None => alerts (fst s)
    end.
Proof.
  destruct s as [st d]. simpl.
  assert (alerts (fst (ingest_metrics env data (ingest_streetlights data st, d)))
          = alerts st) as E.
  { unfold ingest_metrics, ingest_streetlights.
    destruct (pl_metrics data), (pl_streetlights data); done. }
  unfold ingest_prediction.
  destruct (Dashboard_newAlert env data (alerts_seen env)); [|done].
  simpl. by rewrite E.
Qed.

(** *** Active accident alerts *)

Lemma active_accidents_cons (a : Alert) (l : list Alert) :
  active_accidents (a :: l)
  = (if is_active_accident a then 1 else 0) + active_accidents l.
Proof. unfold active_accidents. simpl. by destruct (is_active_accident a). Qed.

Lemma active_accidents_take (n : nat) (l : list Alert) :
  active_accidents (take n l) <= active_accidents l.
Proof.
  revert n. induction l as [|x l IH]; intros [|n]; simpl; try done.
  - unfold active_accidents. simpl. lia.
  - rewrite !active_accidents_cons. specialize (IH n). lia.
Qed.

Lemma already_false (l : list Alert) :
  already l = false -> active_accidents l = 0.
Proof.
  unfold already. induction l as [|x l IH]; [done|]. simpl.
  intros H. apply orb_false_iff in H as [Hx Hl].
  rewrite active_accidents_cons, Hx. by rewrite IH.
Qed.

Lemma spread_not_activated (a : Alert) (u : PartialAlert) :
  activates u = false ->
  is_active_accident (spread a u) = true -> is_active_accident a = true.
Proof.
  unfold activates. intros H. apply orb_false_iff in H as [Hs Ht].
  rewrite !is_active_accident_iff. unfold spread. simpl.
  intros [H1 H2]. split.
  - destruct (p_type u) as [t|]; [|done]. simpl in H1. subst t. done.
  - destruct (p_status u) as [[[]|]|]; done.
Qed.

Lemma updateAlert_not_activated (alertId : string) (u : PartialAlert)
    (l : list Alert) :
  activates u = false ->
  active_accidents (updateAlert alertId u l) <= active_accidents l.
Proof.
  intros H. induction l as [|x l IH]; [done|].
  unfold updateAlert in *. simpl. rewrite !active_accidents_cons.
  destruct (String.eqb (id x) alertId); [|lia].
  pose proof (spread_not_activated x u H) as Hx.
  destruct (is_active_accident (spread x u)); [|lia].
  rewrite Hx by done. lia.
Qed.

Lemma step_keeps_dedup (s : Store) (a : Action) :
  may_activate a = false ->
  match seen_by_alert_center a with
  | Some l => l = alerts (fst s)
  | None => True
  end ->
  active_accidents (alerts (fst s)) <= 1 ->
  active_accidents (alerts (fst (step s a))) <= 1.
Proof.
  intros Ha Hseen Hs.
  destruct a as [env msg|env msg|card|alertId o|alertId u]; simpl.
  - destruct msg as [text|data]; simpl; [done|]. simpl in Hseen.
    unfold EmergencyAlerts_newAlert.
    destruct (confidence data) as [c|]; [|done].
    destruct (accident_detected data); [|done].
    rewrite Hseen.
    destruct (already (alerts (fst s))) eqn:E; [done|]. simpl.
    rewrite addAlert_take. etrans; [apply active_accidents_take|].
    rewrite active_accidents_cons, (already_false _ E). simpl. lia.
  - destruct msg as [text|data]; [done|].
    rewrite Dashboard_onmessage_alerts.
    unfold Dashboard_newAlert. destruct (_ && _); [|done].
    rewrite addAlert_take. etrans; [apply active_accidents_take|].
    by rewrite active_accidents_cons.
  - etrans; [|exact Hs]. by apply updateAlert_not_activated.
  - etrans; [|exact Hs]. simpl in Ha.
    destruct o as [|json]; [done|]. simpl.
    apply negb_false_iff in Ha. rewrite Ha.
    by apply updateAlert_not_activated.
  - etrans; [|exact Hs]. by apply updateAlert_not_activated.
Qed.

Lemma in_sync_take (seen : Action -> option (list Alert)) (acts : list Action)
    (s : Store) (k : nat) :
  in_sync seen s acts -> in_sync seen s (take k acts).
Proof.
  revert s k. induction acts as [|a acts IH]; intros s [|k]; simpl; try done.
  intros [H1 H2]. split; [done|]. by apply IH.
Qed.

Lemma run_keeps_dedup (acts : list Action) (s : Store) :
  in_sync seen_by_alert_center s acts ->
  Forall (fun a => may_activate a = false) acts ->
  active_accidents (alerts (fst s)) <= 1 ->
  active_accidents (alerts (fst (run s acts))) <= 1.
Proof.
  revert s. induction acts as [|a acts IH]; intros s Hsync Hall Hs; [done|].
  destruct Hsync as [Hseen Hsync]. apply Forall_cons in Hall as [Ha Hall].
  change (run s (a :: acts)) with (run (step s a) acts).
  apply IH; [done | done |]. by apply step_keeps_dedup.
Qed.

(** C1, as stated, fails: after a dispatch that fails while a second
    accident alert has been raised, two accident alerts are active; so they
    are after an update that turns an active alert into an accident.  In
    both runs every record is handled after the list has been rendered. *)
Lemma two_active_accidents_after_failed_dispatch :
  in_sync seen_by_alert_center initial_store failed_dispatch_run /\
  active_accidents (alerts (fst (run initial_store failed_dispatch_run))) = 2 /\
  in_sync seen_by_alert_center initial_store retyped_run /\
  active_accidents (alerts (fst (run initial_store retyped_run))) = 2 /\
  ~ (forall acts,
       active_accidents (alerts (fst (run initial_store acts))) <= 1).
Proof.
  assert (active_accidents
            (alerts (fst (run initial_store failed_dispatch_run))) = 2) as E
    by (vm_compute; reflexivity).
  split; [repeat split; vm_compute; reflexivity|].
  split; [exact E|].
  split; [repeat split; vm_compute; reflexivity|].
  split; [vm_compute; reflexivity|].
  intros H. specialize (H failed_dispatch_run). lia.
Qed.

(** C1, as the code has it.  Take any sequence of stream records (to
    either handler), "Send Response" clicks, acknowledged responses and
    updates that provide neither the status [active] nor the kind
    [accident], in which every record reaches the alert center after React
    has rendered the latest alert list, so that [alertsRef.current] is the
    list of the store.  Then the alert list never holds two active accident
    alerts: creation is guarded, and none of these steps activates an
    alert. *)
Theorem dedup_holds_when_rendered (acts : list Action) (k : nat) :
  in_sync seen_by_alert_center initial_store acts ->
  Forall (fun a => may_activate a = false) acts ->
  active_accidents (alerts (fst (run initial_store (take k acts)))) <= 1.
Proof.
  intros Hsync Hall. apply run_keeps_dedup.
  - by apply in_sync_take.
  - by apply Forall_take.
  - simpl. unfold active_accidents. simpl. lia.
Qed.

(** *** Alert ids *)

Lemma created_id (s : Store) (a : Action) (x : Alert) :
  created s a = Some x ->
  exists t, clock_reading a = Some t /\ id x = toString t.
Proof.
  destruct a as [env [text|data]|env [text|data]|card|alertId o|alertId u];
    simpl; try done.
  - unfold EmergencyAlerts_newAlert.
    destruct (confidence data) as [c|]; [|done].
    destruct (accident_detected data); [|done].
    destruct (negb _); [|done].
    intros [= <-]. by exists (now env).
  - unfold Dashboard_newAlert. destruct (_ && _); [|done].
    intros [= <-]. by exists (now env).
Qed.

Lemma creations_ids (acts : list Action) (s : Store) :
  id <$> creations s acts = toString <$> creation_readings s acts.
Proof.
  revert s. induction acts as [|a acts IH]; intros s; simpl; [done|].
  destruct (created s a) as [x|] eqn:E; [|apply IH].
  apply created_id in E as (t & -> & Hid). simpl. by rewrite Hid, IH.
Qed.

#[local] Instance toString_Inj : Inj (=) (=) toString.
Proof. intros m n. apply toString_inj. Qed.

(** C7, as stated, fails: two alerts created at the same reading of the
    millisecond clock carry the same id, and both are in the list. *)
Lemma same_reading_same_id :
  id <$> creations initial_store repeated_reading_run = ["1000"; "1000"] /\
  id <$> alerts (fst (run initial_store repeated_reading_run)) = ["1000"; "1000"] /\
  id <$> creations initial_store shared_record_run = ["1000"; "1000"] /\
  creation_readings initial_store repeated_reading_run = [1000%Z; 1000%Z] /\
  ~ (forall acts, NoDup (id <$> creations initial_store acts)).
Proof.
  assert (id <$> creations initial_store repeated_reading_run = ["1000"; "1000"])
    as E by (vm_compute; reflexivity).
  split; [exact E|].
  split; [vm_compute; reflexivity|].
  split; [vm_compute; reflexivity|].
  split; [vm_compute; reflexivity|].
  intros H. specialize (H repeated_reading_run). rewrite E in H.
  apply NoDup_cons in H as [H _]. apply H. left.
Qed.

(** C7, as the code has it.  The id of a created alert is the decimal
    rendering of the millisecond clock at its creation, so the ids of the
    alerts created along a run are pairwise distinct exactly when the clock
    readings of their creations are. *)
Theorem ids_distinct_iff_readings_distinct (s : Store) (acts : list Action) :
  id <$> creations s acts = toString <$> creation_readings s acts /\
  (NoDup (creation_readings s acts) <-> NoDup (id <$> creations s acts)).
Proof.
  split; [apply creations_ids|].
  rewrite creations_ids. symmetry. apply (NoDup_fmap toString).
Qed.

(** ** Chart histories *)

Lemma step_histories (s : Store) (a : Action) :
  let d := snd s in
  let d' := snd (step s a) in
  match metrics_of a with
  | Some (env, m) =>
      powerHistory d' = push_history 20 (power_point env m) (powerHistory d) /\
      savingsHistory d' = push_history 20 (savings_point env m) (savingsHistory d) /\
      occupancyHistory d' = push_history 50 (occupancy_point m) (occupancyHistory d)
  | None =>
      powerHistory d' = powerHistory d /\
      savingsHistory d' = savingsHistory d /\
      occupancyHistory d' = occupancyHistory d
  end.
Proof.
  destruct s as [st d].
  destruct a as [env msg|env [text|data]|card|alertId o|alertId u];
    simpl; try done.
  unfold ingest_metrics. simpl. destruct (pl_metrics data) as [m|]; done.
Qed.

Lemma appended_snoc (acts : list Action) (a : Action) :
  appended (acts ++ [a])
  = appended acts ++ match metrics_of a with Some p => [p] | None => [] end.
Proof.
  unfold appended. rewrite omap_app. simpl. by destruct (metrics_of a).
Qed.

(** Each history is the suffix of what was appended, cut at its capacity. *)
Lemma run_histories (acts : list Action) :
  let d := snd (run initial_store acts) in
  let pts := appended acts in
  powerHistory d = drop (length (power_of <$> pts) - 20) (power_of <$> pts) /\
  savingsHistory d = drop (length (savings_of <$> pts) - 20) (savings_of <$> pts) /\
  occupancyHistory d = drop (length (occupancy_of <$> pts) - 50) (occupancy_of <$> pts).
Proof.
  induction acts as [|a acts IH] using rev_ind; [done|].
  cbv zeta in *. rewrite run_snoc, appended_snoc.
  pose proof (step_histories (run initial_store acts) a) as H. cbv zeta in H.
  destruct IH as (IH1 & IH2 & IH3).
  destruct (metrics_of a) as [[env m]|].
  - destruct H as (-> & -> & ->). rewrite IH1, IH2, IH3. rewrite !fmap_app. simpl.
    change 20%Z with (Z.of_nat 20). change 50%Z with (Z.of_nat 50).
    rewrite !push_history_suffix by lia. done.
  - destruct H as (-> & -> & ->). by rewrite app_nil_r.
Qed.

(** C4. Along any run, each chart history holds the points appended to it
    by the dashboard handler, oldest first, cut to its capacity (20 for
    power and savings, 50 for occupancy against brightness): it never
    holds more than its capacity, and once at least that many points were
    appended it holds exactly the last ones in arrival order.  After 25
    appends the power and savings histories hold points 6 to 25. *)
Theorem histories_keep_the_last_points (acts : list Action) :
  let d := snd (run initial_store acts) in
  let pts := appended acts in
  let N := length pts in
  (length (powerHistory d) <= 20 /\ length (savingsHistory d) <= 20 /\
   length (occupancyHistory d) <= 50) /\
  (20 <= N ->
   length (powerHistory d) = 20 /\
   powerHistory d = power_of <$> drop (N - 20) pts /\
   length (savingsHistory d) = 20 /\
   savingsHistory d = savings_of <$> drop (N - 20) pts) /\
  (50 <= N ->
   length (occupancyHistory d) = 50 /\
   occupancyHistory d = occupancy_of <$> drop (N - 50) pts) /\
  (N = 25 ->
   powerHistory d = power_of <$> drop 5 pts /\
   savingsHistory d = savings_of <$> drop 5 pts).
Proof.
  cbv zeta. destruct (run_histories acts) as (H1 & H2 & H3). cbv zeta in *.
  rewrite !length_fmap, <- !fmap_drop in *.
  rewrite H1, H2, H3.
  rewrite !length_fmap, !length_drop.
  repeat split; try lia.
  all: match goal with E : length _ = 25 |- _ => by rewrite E end.
Qed.

(** ** Malformed records *)

(** C5. A record that [JSON.parse] rejects leaves the whole store as it
    was in both handlers, but only the handler of [EmergencyAlerts] drops
    it with a logged diagnostic: the handler of [Dashboard] parses outside
    of any [try] and lets the [SyntaxError] escape to its caller. *)
Theorem malformed_record_escapes_dashboard
    (env : Env) (text : string) (s : Store) :
  Dashboard_onmessage env (Malformed text) s = Throw (SyntaxError text) /\
  EmergencyAlerts_onmessage env (Malformed text) (alerts (fst s))
  = Normal (alerts (fst s)) ["Failed to parse SSE event"] /\
  step s (Stream_Dashboard env (Malformed text)) = s /\
  alerts (fst (step s (Stream_EmergencyAlerts env (Malformed text))))
  = alerts (fst s).
Proof. by destruct s as [[] ?]. Qed.

(** ** Snapshots *)

Lemma Dashboard_onmessage_snapshots (env : Env) (data : Payload) (s : Store) :
  let s' := state_after s (Dashboard_onmessage env (Json data) s) in
  streetlights (fst s') = default (streetlights (fst s)) (pl_streetlights data) /\
  metrics (fst s') = default (metrics (fst s)) (pl_metrics data).
Proof.
  destruct s as [st d]. simpl.
  unfold ingest_prediction, ingest_metrics, ingest_streetlights.
  destruct (pl_streetlights data), (pl_metrics data); simpl;
    destruct (Dashboard_newAlert _ _ _); done.
Qed.

(** C6, as stated, fails: a brightness of 150 and savings of 120 and -5
    sent by the producer are in the store after the record is handled. *)
Lemma out_of_range_values_are_stored :
  let s' := step initial_store
              (Stream_Dashboard (env_at 1000) out_of_range_record) in
  sl_brightness <$> streetlights (fst s') = [150%Q] /\
  percentages (metrics (fst s')) = [120%Q; (-5)%Q; 150%Q; 30%Q] /\
  ~ in_range 150 /\ ~ in_range 120 /\ ~ in_range (-5) /\
  ~ (Forall in_range (sl_brightness <$> streetlights (fst s')) /\
     Forall in_range (percentages (metrics (fst s')))).
Proof.
  cbv zeta.
  assert (~ in_range 150) as H150 by (intros [_ H]; by compute in H).
  assert (~ in_range 120) as H120 by (intros [_ H]; by compute in H).
  assert (~ in_range (-5)) as H5 by (intros [H _]; by compute in H).
  split; [vm_compute; reflexivity|].
  split; [vm_compute; reflexivity|].
  repeat split; try done.
  intros [H _]. vm_compute in H. apply Forall_cons in H as [H _]. by apply H150.
Qed.

(** C6, as the code has it.  The dashboard handler stores the streetlights
    and the metrics of a record exactly as the producer sent them; no value
    is clamped.  The stored brightness values and percentages therefore lie
    in [[0, 100]] exactly when those of the record do. *)
Theorem snapshots_are_stored_verbatim
    (env : Env) (data : Payload) (s : Store) :
  let s' := step s (Stream_Dashboard env (Json data)) in
  (forall lights, pl_streetlights data = Some lights ->
     streetlights (fst s') = lights /\
     (Forall in_range (sl_brightness <$> streetlights (fst s')) <->
      Forall in_range (sl_brightness <$> lights))) /\
  (forall m, pl_metrics data = Some m ->
     metrics (fst s') = m /\
     (Forall in_range (percentages (metrics (fst s'))) <->
      Forall in_range (percentages m))).
Proof.
  cbv zeta. unfold step.
  destruct (Dashboard_onmessage_snapshots env data s) as [H1 H2].
  cbv zeta in H1, H2. rewrite H1, H2.
  split; intros x ->; done.
Qed.

(** C9. Handling a record that carries a streetlight sequence replaces
    the stored streetlights by that sequence, whatever was stored before:
    the store then holds exactly the entities of the sequence, an entity
    whose id the sequence omits is gone, and handling the same sequence a
    second time leaves the same streetlights.  On the store itself,
    [setStreetlights] applied twice is [setStreetlights] applied once. *)
Theorem applySnapshot_replaces
    (env env' : Env) (data data' : Payload) (lights : list Streetlight)
    (s : Store) :
  pl_streetlights data = Some lights ->
  pl_streetlights data' = Some lights ->
  let s1 := step s (Stream_Dashboard env (Json data)) in
  let s2 := step s1 (Stream_Dashboard env' (Json data')) in
  streetlights (fst s1) = lights /\
  streetlights (fst s2) = streetlights (fst s1) /\
  setStreetlights lights (setStreetlights lights (fst s))
  = setStreetlights lights (fst s) /\
  (forall e, e ∈ streetlights (fst s1) <-> e ∈ lights) /\
  (forall i, (forall e, e ∈ lights -> sl_id e <> i) ->
             forall e, e ∈ streetlights (fst s1) -> sl_id e <> i).
Proof.
  intros H H'. cbv zeta. unfold step.
  destruct (Dashboard_onmessage_snapshots env data s) as [H1 _].
  destruct (Dashboard_onmessage_snapshots env' data'
              (state_after s (Dashboard_onmessage env (Json data) s))) as [H2 _].
  cbv zeta in H1, H2. rewrite H2, H1, H, H'. simpl.
  repeat split; auto.
Qed.

(** ** Instances on concrete inputs *)

(** C2, as stated, fails for [action: 'ambulance']: when the request is
    issued the alert is still [active], and after an ["ok"] response its
    responders count is the one it had. *)
Lemma ambulance_skips_optimistic_update :
  [first_alert] !! 0 = Some first_alert /\
  status <$> before_request action_ambulance first_alert [first_alert] !! 0
  = Some (Some active) /\
  responders <$> dispatch action_ambulance first_alert ok_body [first_alert] !! 0
  = Some (Some 2%Q) /\
  ~ (forall action card o l i,
       l !! i = Some card ->
       (exists a, before_request action card l !! i = Some a /\
                  status a = Some investigating) /\
       (exists a, dispatch action card o l !! i = Some a /\
                  responders a = Some (or_zero (responders card) + 1)%Q)).
Proof.
  split; [done|]. split; [done|]. split; [vm_compute; reflexivity|].
  intros H.
  destruct (H action_ambulance first_alert ok_body [first_alert] 0 eq_refl)
    as [(a & Ha & Hs) _].
  simpl in Ha. injection Ha as <-. discriminate Hs.
Qed.

Lemma dedup_holds_when_rendered_witness :
  in_sync seen_by_alert_center initial_store repeated_reading_run /\
  Forall (fun a => may_activate a = false) repeated_reading_run /\
  active_accidents (alerts (fst (run initial_store (take 3 repeated_reading_run)))) <= 1.
Proof.
  assert (in_sync seen_by_alert_center initial_store repeated_reading_run) as Hs
    by (repeat split; vm_compute; reflexivity).
  assert (Forall (fun a => may_activate a = false) repeated_reading_run) as H
    by (repeat constructor).
  split; [exact Hs|]. split; [exact H|].
  exact (dedup_holds_when_rendered repeated_reading_run 3 Hs H).
Defined.

Lemma dispatch_by_action_witness :
  [first_alert] !! 0 = Some first_alert /\
  (exists a, dispatch action_dispatch first_alert error_body [first_alert] !! 0 = Some a /\
             final_status error_body (status a) /\
             responders a = Some (or_zero (responders first_alert) + 1)%Q).
Proof.
  split; [reflexivity|].
  exact (proj1 (proj2
    (dispatch_by_action first_alert error_body [first_alert] 0 eq_refl))).
Defined.

Lemma unit_draws_env_at (t : Z) : unit_draws (env_at t).
Proof. intros k. split; simpl; by compute. Defined.

Lemma histories_keep_the_last_points_witness :
  length (appended metrics_run_25) = 25 /\
  pw_active <$> powerHistory (snd (run initial_store metrics_run_25))
  = (fun i => inject_Z (Z.of_nat i)) <$> seq 6 20.
Proof.
  assert (length (appended metrics_run_25) = 25) as E by (vm_compute; reflexivity).
  split; [exact E|].
  destruct (histories_keep_the_last_points metrics_run_25) as (_ & _ & _ & H).
  destruct (H E) as [H1 _]. rewrite H1. vm_compute. reflexivity.
Defined.

Lemma snapshots_are_stored_verbatim_witness :
  pl_streetlights (mkPayload None None (Some [mkStreetlight "L1" 70 "active"]) None)
  = Some [mkStreetlight "L1" 70 "active"] /\
  streetlights (fst (step initial_store
    (Stream_Dashboard (env_at 1000)
       (Json (mkPayload None None (Some [mkStreetlight "L1" 70 "active"]) None)))))
  = [mkStreetlight "L1" 70 "active"].
Proof.
  split; [reflexivity|].
  exact (proj1 (proj1 (snapshots_are_stored_verbatim (env_at 1000)
    (mkPayload None None (Some [mkStreetlight "L1" 70 "active"]) None)
    initial_store) _ eq_refl)).
Defined.

Lemma ids_distinct_iff_readings_distinct_witness :
  NoDup (creation_readings initial_store failed_dispatch_run) /\
  NoDup (id <$> creations initial_store failed_dispatch_run).
Proof.
  assert (NoDup (creation_readings initial_store failed_dispatch_run)) as H.
  { apply (bool_decide_unpack _). vm_compute. reflexivity. }
  split; [exact H|].
  exact (proj1 (proj2 (ids_distinct_iff_readings_distinct initial_store
                         failed_dispatch_run)) H).
Defined.

Lemma updateAlert_merges_or_ignores_witness :
  (forall a, a ∈ [first_alert] -> id a <> "7") /\
  updateAlert "7" (status_only resolved) [first_alert] = [first_alert] /\
  [first_alert] !! 0 = Some first_alert /\
  (exists a', updateAlert "1000" (status_only resolved) [first_alert] !! 0 = Some a' /\
              (id first_alert = "1000" -> merged first_alert (status_only resolved) a') /\
              (id first_alert <> "1000" -> a' = first_alert)).
Proof.
  assert (forall a, a ∈ [first_alert] -> id a <> "7") as H.
  { intros a Ha. apply list_elem_of_singleton in Ha. subst a. simpl. discriminate. }
  split; [exact H|]. split.
  - exact (proj1 (updateAlert_merges_or_ignores "7" (status_only resolved)
                    [first_alert]) H).
  - split; [reflexivity|].
    exact (proj2 (proj2 (updateAlert_merges_or_ignores "1000"
                           (status_only resolved) [first_alert]))
             0 first_alert eq_refl).
Defined.

Lemma applySnapshot_replaces_witness :
  pl_streetlights (mkPayload None None (Some [mkStreetlight "L2" 40 "active"]) None)
  = Some [mkStreetlight "L2" 40 "active"] /\
  streetlights (fst (step
    (step initial_store (Stream_Dashboard (env_at 1000) out_of_range_record))
    (Stream_Dashboard (env_at 2000)
       (Json (mkPayload None None (Some [mkStreetlight "L2" 40 "active"]) None)))))
  = [mkStreetlight "L2" 40 "active"].
Proof.
  split; [reflexivity|].
  exact (proj1 (applySnapshot_replaces (env_at 2000) (env_at 3000)
    (mkPayload None None (Some [mkStreetlight "L2" 40 "active"]) None)
    (mkPayload None None (Some [mkStreetlight "L2" 40 "active"]) None)
    [mkStreetlight "L2" 40 "active"]
    (step initial_store (Stream_Dashboard (env_at 1000) out_of_range_record))
    eq_refl eq_refl)).
Defined.

Lemma activeIncidents_counts_open_alerts_witness :
  status first_alert = Some active /\
  activeIncidents [first_alert] = 1.
Proof.
  split; [reflexivity|].
  exact (proj1 (proj2 (activeIncidents_counts_open_alerts [first_alert])
                  [] first_alert [] eq_refl) (or_introl eq_refl)).
Defined.

(** * Further properties of the store *)

(** ** The alert window *)

Lemma addAlert_length (a : Alert) (l : list Alert) :
  length (addAlert a l) <= 20.
Proof. rewrite addAlert_take, length_take. lia. Qed.

Lemma settle_is_update (alertId : string) (o : FetchOutcome) (l : list Alert) :
  exists s, (s = active \/ s = investigating) /\
            settle alertId o l = updateAlert alertId (status_only s) l.
Proof.
  destruct o as [|json]; simpl.
  - exists active. split; [by left|done].
  - destruct (acknowledged json); [exists investigating | exists active];
      (split; [auto|done]).
Qed.

Lemma step_keeps_cap (s : Store) (a : Action) :
  length (alerts (fst s)) <= 20 -> length (alerts (fst (step s a))) <= 20.
Proof.
  intros H. destruct a as [env msg|env msg|card|alertId o|alertId u]; simpl.
  - destruct msg as [text|data]; simpl; [done|].
    destruct (EmergencyAlerts_newAlert env data (alerts_seen env));
      [apply addAlert_length | done].
  - destruct msg as [text|data]; [done|].
    rewrite Dashboard_onmessage_alerts.
    destruct (Dashboard_newAlert env data (alerts_seen env));
      [apply addAlert_length | done].
  - unfold SendResponse_optimistic. by rewrite updateAlert_length.
  - destruct (settle_is_update alertId o (alerts (fst s))) as (st & _ & ->).
    by rewrite updateAlert_length.
  - by rewrite updateAlert_length.
Qed.

(** X1. Whatever reaches the store (stream records at either handler,
    clicks, completed requests with any outcome, updates), the alert list
    never holds more than twenty alerts. *)
Theorem alerts_never_exceed_cap (acts : list Action) :
  length (alerts (fst (run initial_store acts))) <= 20.
Proof.
  induction acts as [|a acts IH] using rev_ind.
  - simpl. lia.
  - rewrite run_snoc. by apply step_keeps_cap.
Qed.

Lemma take_cons_take {A : Type} (n : nat) (a : A) (l : list A) :
  take (S n) (a :: take (S n) l) = take (S n) (a :: l).
Proof. simpl. f_equal. rewrite take_take. f_equal. lia. Qed.

(** X2. Adding alerts one after the other to a list within the cap leaves
    the twenty most recent alerts, newest first: the alerts added, last one
    first, followed by the old list, cut after twenty. *)
Theorem addAlert_keeps_newest (added l : list Alert) :
  length l <= 20 ->
  fold_left (fun acc a => addAlert a acc) added l = take 20 (rev added ++ l).
Proof.
  intros Hl. induction added as [|a added IH] using rev_ind; simpl.
  - by rewrite take_ge.
  - rewrite fold_left_app, rev_unit. simpl fold_left. rewrite IH.
    rewrite addAlert_take. apply (take_cons_take 19).
Qed.

(** ** Composition of updates *)

Lemma spread_spread (a : Alert) (u v : PartialAlert) :
  spread (spread a u) v = spread a (then_updates u v).
Proof.
  destruct u as [i t s l c d ts st r], v as [i' t' s' l' c' d' ts' st' r'].
  unfold spread, then_updates. simpl.
  destruct i', t', s', l', c', d', ts', st', r'; reflexivity.
Qed.

Lemma spread_id_kept (a : Alert) (u : PartialAlert) :
  p_id u = None -> id (spread a u) = id a.
Proof. intros H. unfold spread. simpl. by rewrite H. Qed.

Lemma then_updates_same (u : PartialAlert) : then_updates u u = u.
Proof.
  destruct u as [i t s l c d ts st r]. unfold then_updates. simpl.
  destruct i, t, s, l, c, d, ts, st, r; reflexivity.
Qed.

(** X3. Updates of two different ids that do not provide an id commute. *)
Theorem updateAlert_commutes
    (i j : string) (u v : PartialAlert) (l : list Alert) :
  i <> j -> p_id u = None -> p_id v = None ->
  updateAlert i u (updateAlert j v l) = updateAlert j v (updateAlert i u l).
Proof.
  intros Hij Hu Hv. unfold updateAlert. rewrite !map_map.
  apply map_ext. intros a.
  destruct (String.eqb (id a) j) eqn:Ej, (String.eqb (id a) i) eqn:Ei;
    rewrite ?spread_id_kept by done; rewrite ?Ei, ?Ej; try done.
  apply String.eqb_eq in Ei, Ej. congruence.
Qed.

(** X4. Two updates of the same id, when the first keeps the id, are the
    single update with the fields of both, the second one winning; so an
    update applied twice is the update applied once.  When the first gives
    the alerts another id, the second finds no alert to change. *)
Theorem updateAlert_twice
    (alertId : string) (u v : PartialAlert) (l : list Alert) :
  (p_id u = None \/ p_id u = Some alertId ->
   updateAlert alertId v (updateAlert alertId u l)
   = updateAlert alertId (then_updates u v) l) /\
  (p_id u = None \/ p_id u = Some alertId ->
   updateAlert alertId u (updateAlert alertId u l) = updateAlert alertId u l) /\
  (forall k, p_id u = Some k -> k <> alertId ->
   updateAlert alertId v (updateAlert alertId u l) = updateAlert alertId u l).
Proof.
  assert (forall w, (p_id u = None \/ p_id u = Some alertId) ->
            updateAlert alertId w (updateAlert alertId u l)
            = updateAlert alertId (then_updates u w) l) as H.
  { intros w Hu. unfold updateAlert. rewrite map_map. apply map_ext. intros a.
    destruct (String.eqb_spec (id a) alertId) as [E|E].
    - assert (id (spread a u) = alertId) as ->
        by (unfold spread; simpl; destruct Hu as [-> | ->]; done).
      rewrite String.eqb_refl. apply spread_spread.
    - by rewrite (proj2 (String.eqb_neq _ _) E). }
  split; [apply H|]. split.
  - intros Hu. rewrite H by done. by rewrite then_updates_same.
  - intros k Hk Hne. unfold updateAlert. rewrite map_map. apply map_ext.
    intros a. destruct (String.eqb_spec (id a) alertId) as [E|E].
    + assert (id (spread a u) = k) as -> by (unfold spread; simpl; by rewrite Hk).
      by rewrite (proj2 (String.eqb_neq _ _) Hne).
    + by rewrite (proj2 (String.eqb_neq _ _) E).
Qed.

(** ** Dispatch and the incident counters *)

Lemma reopened_cons (alertId : string) (a : Alert) (l : list Alert) :
  reopened alertId (a :: l)
  = (if String.eqb (id a) alertId && negb (is_open a) then 1 else 0)
    + reopened alertId l.
Proof. unfold reopened. simpl. by destruct (_ && _). Qed.

Lemma updateAlert_opens (alertId : string) (s : Status) (r : option (option Q))
    (l : list Alert) :
  s = active \/ s = investigating ->
  let u := mkPartial None None None None None None None (Some (Some s)) r in
  activeIncidents (updateAlert alertId u l)
  = activeIncidents l + reopened alertId l /\
  reopened alertId (updateAlert alertId u l) = 0.
Proof.
  intros Hs u. induction l as [|x l [IH1 IH2]]; [done|].
  unfold updateAlert in *. simpl map.
  rewrite !activeIncidents_cons, !reopened_cons, IH1, IH2.
  destruct (String.eqb (id x) alertId) eqn:E.
  - assert (is_open (spread x u) = true) as Ho
      by (unfold is_open; simpl; destruct Hs as [-> | ->]; done).
    rewrite Ho. simpl id. rewrite E. cbn [andb].
    destruct (is_open x); cbn [negb]; lia.
  - rewrite E. cbn [andb]. lia.
Qed.

Lemma settle_opens (alertId : string) (o : FetchOutcome) (l : list Alert) :
  activeIncidents (settle alertId o l) = activeIncidents l + reopened alertId l /\
  reopened alertId (settle alertId o l) = 0.
Proof.
  destruct (settle_is_update alertId o l) as (s & Hs & ->).
  by apply (updateAlert_opens alertId s None).
Qed.

(** X5. A dispatch, with either button and whatever its outcome, leaves
    every alert that carries the card's id [active] or [investigating]:
    the active-incident count never goes down, and goes up by the number of
    alerts with that id that were [resolved] or without status, which the
    dispatch re-opens. *)
Theorem dispatch_reopens
    (action : DispatchAction) (card : Alert) (o : FetchOutcome) (l : list Alert) :
  activeIncidents (dispatch action card o l)
  = activeIncidents l + reopened (id card) l /\
  reopened (id card) (dispatch action card o l) = 0.
Proof.
  destruct action; unfold dispatch, SendResponse_onClick,
    RequestAmbulance_onClick; [|apply settle_opens].
  destruct (settle_opens (id card) o (SendResponse_optimistic card l)) as [H1 H2].
  destruct (updateAlert_opens (id card) investigating
              (Some (Some (or_zero (responders card) + 1)%Q)) l
              (or_intror eq_refl)) as [H3 H4].
  fold (status_and_responders investigating (or_zero (responders card) + 1)%Q)
    in H3, H4.
  fold (SendResponse_optimistic card l) in H3, H4.
  split; [|exact H2]. rewrite H1, H3, H4. lia.
Qed.

Lemma count_cons {A : Type} (f : A -> bool) (x : A) (l : list A) :
  length (List.filter f (x :: l))
  = (if f x then 1 else 0) + length (List.filter f l).
Proof. simpl. by destruct (f x). Qed.

Lemma status_flags (x : Alert) :
  is_open x = is_active x || is_investigating x /\
  is_active x && is_investigating x = false /\
  (is_active_accident x = true -> is_active x = true).
Proof.
  unfold is_open, is_active, is_investigating, is_active_accident.
  destruct (status x) as [[]|], (String.eqb (type x) "accident"); done.
Qed.

(** X6. The sidebar's [activeIncidents] is the alert center's count of
    active alerts plus the alerts under investigation; the active accident
    alerts are among the active alerts, and no counter exceeds the length
    of the list. *)
Theorem incident_counters_agree (l : list Alert) :
  activeIncidents l = activeAlerts l + length (List.filter is_investigating l) /\
  active_accidents l <= activeAlerts l /\
  activeIncidents l <= length l /\
  criticalAlerts l <= length l.
Proof.
  unfold activeIncidents, activeAlerts, active_accidents, criticalAlerts.
  induction l as [|x l (IH1 & IH2 & IH3 & IH4)]; [simpl; lia|].
  rewrite !count_cons. cbn [length].
  destruct (status_flags x) as (F1 & F2 & F3).
  destruct (is_open x), (is_active x), (is_investigating x),
    (is_active_accident x), (bool_decide (severity x = critical));
    simpl in F1, F2, F3; try discriminate; try lia.
  all: by specialize (F3 eq_refl).
Qed.








Lemma updateAlert_keeps (alertId : string) (u : PartialAlert) (l : list Alert) :
  p_id u = None -> p_type u = None ->
  map id (updateAlert alertId u l) = map id l /\
  map type (updateAlert alertId u l) = map type l.
Proof.
  intros Hi Ht. unfold updateAlert. rewrite !map_map.
  split; apply map_ext; intros a; destruct (String.eqb _ _); try done;
    unfold spread; simpl; by rewrite ?Hi, ?Ht.
Qed.

(** X8. A dispatch never adds, removes, reorders, re-keys or re-types an
    alert; and when no alert carries the card's id any more (it was pushed
    out of the window while the request was in flight), the dispatch
    changes nothing at all. *)
Theorem dispatch_keeps_the_window
    (action : DispatchAction) (card : Alert) (o : FetchOutcome) (l : list Alert) :
  map id (dispatch action card o l) = map id l /\
  map type (dispatch action card o l) = map type l /\
  ((forall a, a ∈ l -> id a <> id card) -> dispatch action card o l = l).
Proof.
  assert (forall m, map id (settle (id card) o m) = map id m /\
                    map type (settle (id card) o m) = map type m) as Hs.
  { intros m. destruct (settle_is_update (id card) o m) as (s & _ & ->).
    by apply updateAlert_keeps. }
  assert (map id (SendResponse_optimistic card l) = map id l /\
          map type (SendResponse_optimistic card l) = map type l) as Ho
    by (by apply updateAlert_keeps).
  assert (forall m, (forall a, a ∈ m -> id a <> id card) ->
                    settle (id card) o m = m) as Hn.
  { intros m Hm. destruct (settle_is_update (id card) o m) as (s & _ & ->).
    by apply updateAlert_unknown. }
  destruct action; unfold dispatch, SendResponse_onClick,
    RequestAmbulance_onClick.
  - destruct (Hs (SendResponse_optimistic card l)) as [-> ->].
    destruct Ho as [Ho1 Ho2]. split; [done|]. split; [done|].
    intros H. unfold SendResponse_optimistic.
    rewrite (updateAlert_unknown _ _ l H). by apply Hn.
  - destruct (Hs l) as [-> ->]. split; [done|]. split; [done|]. apply Hn.
Qed.

(** * Further properties of the dashboard *)

(** ** The latest snapshot *)

Lemma step_metrics (s : Store) (a : Action) :
  match metrics_of a with
  | Some (env, m) =>
      metrics (fst (step s a)) = m /\
      energySavings (fst (step s a)) = savings_vs_100 m
  | None =>
      metrics (fst (step s a)) = metrics (fst s) /\
      energySavings (fst (step s a)) = energySavings (fst s)
  end.
Proof.
  destruct s as [st d].
  destruct a as [env msg|env [text|data]|card|alertId o|alertId u];
    simpl; try done.
  unfold ingest_prediction, ingest_metrics, ingest_streetlights.
  destruct (pl_metrics data) as [m|], (pl_streetlights data); simpl;
    destruct (Dashboard_newAlert _ _ _); done.
Qed.

Lemma appended_last (acts : list Action) (a : Action) :
  last (appended (acts ++ [a]))
  = match metrics_of a with
    | Some p => Some p
    | None => last (appended acts)
    end.
Proof.
  rewrite appended_snoc. destruct (metrics_of a) as [p|].
  - apply last_snoc.
  - by rewrite app_nil_r.
Qed.

Lemma push_history_last {A : Type} (n : nat) (x : A) (l : list A) :
  0 < n -> last (push_history (Z.of_nat n) x l) = Some x.
Proof.
  intros Hn. rewrite push_history_drop by done.
  destruct (Nat.le_gt_cases n (length l)) as [H|H].
  - rewrite drop_app_le by lia. apply last_snoc.
  - replace (S (length l) - n) with 0 by lia. apply last_snoc.
Qed.

(** X9. After any run, the stored metrics, the energy savings and the
    newest point of each chart history are those of the last metrics
    record the dashboard handled; before the first such record they are
    the initial values and the histories are empty. *)
Theorem latest_metrics_win (acts : list Action) :
  let s := run initial_store acts in
  match last (appended acts) with
  | Some (env, m) =>
      metrics (fst s) = m /\
      energySavings (fst s) = savings_vs_100 m /\
      last (powerHistory (snd s)) = Some (power_point env m) /\
      last (savingsHistory (snd s)) = Some (savings_point env m) /\
      last (occupancyHistory (snd s)) = Some (occupancy_point m)
  | None =>
      metrics (fst s) = initial_metrics /\
      energySavings (fst s) = 73%Q /\
      powerHistory (snd s) = [] /\ savingsHistory (snd s) = [] /\
      occupancyHistory (snd s) = []
  end.
Proof.
  cbv zeta. induction acts as [|a acts IH] using rev_ind; [done|].
  rewrite run_snoc, appended_last.
  pose proof (step_metrics (run initial_store acts) a) as Hm.
  pose proof (step_histories (run initial_store acts) a) as Hh.
  cbv zeta in Hh.
  destruct (metrics_of a) as [[env m]|].
  - destruct Hm as [-> ->], Hh as (-> & -> & ->).
    change 20%Z with (Z.of_nat 20). change 50%Z with (Z.of_nat 50).
    rewrite !push_history_last by lia. done.
  - destruct Hm as [-> ->], Hh as (-> & -> & ->). exact IH.
Qed.

(** ** The line charts *)

(** X10. After any run the two line charts have the same labels, every
    dataset of a chart has one value per label, and there are at most
    twenty labels. *)
Theorem line_charts_are_aligned (acts : list Action) :
  let d := snd (run initial_store acts) in
  labels (activeVsBaselineData d) = labels (savingsData d) /\
  Forall (fun ds => length (ds_data ds) = length (labels (activeVsBaselineData d)))
         (datasets (activeVsBaselineData d) ++ datasets (savingsData d)) /\
  length (labels (activeVsBaselineData d)) <= 20.
Proof.
  cbv zeta. destruct (run_histories acts) as (H1 & H2 & _). cbv zeta in *.
  unfold activeVsBaselineData, savingsData. simpl.
  rewrite H1, H2. split; [|split].
  - rewrite <- !fmap_drop, !length_fmap.
    rewrite <- !(list_fmap_compose _ _ (drop _ _)). done.
  - repeat constructor; simpl;
      rewrite !length_map, !length_drop, !length_fmap; done.
  - rewrite length_map, length_drop, length_fmap. lia.
Qed.

(** ** The latency indicator *)

Lemma latency_in_range (r : Q) :
  (0 <= r /\ r < 1)%Q -> (30 <= 30 + r * 30 /\ 30 + r * 30 <= 60)%Q.
Proof. intros [H0 H1]. split; lra. Qed.

Lemma step_latency (s : Store) (a : Action) :
  draws_in_unit a ->
  (30 <= aiLatency (snd s) /\ aiLatency (snd s) <= 60)%Q ->
  (30 <= aiLatency (snd (step s a)) /\ aiLatency (snd (step s a)) <= 60)%Q.
Proof.
  intros Ha Hs. destruct s as [st d].
  destruct a as [env msg|env [text|data]|card|alertId o|alertId u];
    simpl; try done.
  apply latency_in_range. apply Ha.
Qed.

(** X11. As long as [Math.random()] stays in [[0, 1)], the latency shown by
    the dashboard is at least 30 and at most 60 after any run.  (The upper
    bound is reached: for a draw next to 1 the rounded sum is 60.) *)
Theorem latency_between_30_and_60 (acts : list Action) :
  Forall draws_in_unit acts ->
  (30 <= aiLatency (snd (run initial_store acts)) /\
   aiLatency (snd (run initial_store acts)) <= 60)%Q.
Proof.
  induction acts as [|a acts IH] using rev_ind; intros H.
  - simpl. split; by compute.
  - apply Forall_app in H as [Hl Ha]. rewrite run_snoc.
    apply step_latency; [by inversion Ha | by apply IH].
Qed.

(** ** The average brightness *)

Lemma Qsum_bounds (lo hi : Q) (l : list Q) (acc : Q) :
  Forall (fun b => (lo <= b /\ b <= hi)%Q) l ->
  (acc + inject_Z (Z.of_nat (length l)) * lo <= fold_left Qplus l acc /\
   fold_left Qplus l acc <= acc + inject_Z (Z.of_nat (length l)) * hi)%Q.
Proof.
  intros H. revert acc. induction H as [|x l [Hlo Hhi] _ IH]; intros acc.
  - cbn [fold_left length]. change (inject_Z (Z.of_nat 0)) with 0%Q. split; lra.
  - destruct (IH (acc + x)%Q) as [IH1 IH2].
    cbn [fold_left length]. rewrite Nat2Z.inj_succ. unfold Z.succ.
    rewrite inject_Z_plus. change (inject_Z 1) with 1%Q.
    set (n := inject_Z (Z.of_nat (length l))) in *.
    split.
    + eapply Qle_trans; [|exact IH1]. lra.
    + eapply Qle_trans; [exact IH2|]. lra.
Qed.

(** X12. The average of an empty brightness distribution is 0, and when
    the producer's brightness values are percentages (from 0 to 100), so
    is the abscissa of the occupancy point. *)
Theorem avgBrightness_of_percentages (m : Metrics) :
  (brightness_dist m = [] -> oc_x (occupancy_point m) = 0%Q) /\
  (Forall in_range (brightness_dist m) -> in_range (oc_x (occupancy_point m))).
Proof.
  split.
  - intros E. unfold occupancy_point. simpl. by rewrite E.
  - intros Hall. unfold occupancy_point. simpl.
    destruct (brightness_dist m) as [|x dist] eqn:E.
    + split; by compute.
    + destruct (Qsum_bounds 0 100 (x :: dist) 0 Hall) as [H1 H2].
      unfold avgBrightness. set (l := x :: dist) in *.
      assert (0 < inject_Z (Z.of_nat (length l)))%Q as Hpos.
      { change 0%Q with (inject_Z 0). rewrite <- Zlt_Qlt. simpl. lia. }
      split.
      * apply Qle_shift_div_l; [done|]. lra.
      * apply Qle_shift_div_r; [done|]. lra.
Qed.

(** ** The brightness histogram *)

Lemma Qfloor_iff (x : Q) (i : Z) :
  Qfloor x = i <-> (inject_Z i <= x /\ x < inject_Z (i + 1))%Q.
Proof.
  split.
  - intros <-. split; [apply Qfloor_le | apply Qlt_floor].
  - intros [H1 H2].
    assert (i <= Qfloor x)%Z
      by (rewrite <- (Qfloor_Z i); by apply Qfloor_resp_le).
    assert (Qfloor x < i + 1)%Z
      by (rewrite Zlt_Qlt; eapply Qle_lt_trans; [apply Qfloor_le | done]).
    lia.
Qed.

Lemma Qfloor_ge (x : Q) (i : Z) : (i <= Qfloor x)%Z <-> (inject_Z i <= x)%Q.
Proof.
  split.
  - intros H. eapply Qle_trans; [|apply Qfloor_le]. by rewrite <- Zle_Qle.
  - intros H. rewrite <- (Qfloor_Z i). by apply Qfloor_resp_le.
Qed.

Lemma floor_tenth_ge (b : Q) (i : Z) :
  (i <= Qfloor (b / 10))%Z <-> (inject_Z i * 10 <= b)%Q.
Proof.
  rewrite Qfloor_ge. unfold Qdiv.
  change (/ 10)%Q with (1 # 10)%Q. split; intros H; lra.
Qed.

Lemma binIndex_sign (b : Q) :
  ((0 <= b)%Q -> (0 <= binIndex b)%Z) /\
  ((b <= -1)%Q -> (binIndex b < 0)%Z) /\
  (binIndex b <= 9)%Z.
Proof.
  unfold binIndex, Math_floor. split; [|split; [|lia]].
  - intros Hb.
    assert (0 <= Qfloor (b / 10))%Z
      by (apply floor_tenth_ge; change (inject_Z 0) with 0%Q; lra).
    lia.
  - intros H.
    assert (~ (0 <= Qfloor (b / 10))%Z)
      by (intros H0; apply floor_tenth_ge in H0;
          change (inject_Z 0) with 0%Q in H0; lra).
    lia.
Qed.

(** X13. The bins of the histogram, for a brightness that is not
    negative: a value from [10 j] up to, but not including, [10 j + 10]
    falls into bin [j] for [j] below 9; the last bin takes every value from
    90 on, so 100 and anything above are counted there.  A value of -1 or
    less falls into no bin. *)
Theorem binIndex_of_a_brightness (b : Q) :
  ((0 <= b)%Q ->
   (0 <= binIndex b <= 9)%Z /\
   (binIndex b = 9%Z <-> (90 <= b)%Q) /\
   (forall j : Z, (0 <= j < 9)%Z ->
      binIndex b = j <->
      (inject_Z j * 10 <= b /\ b < inject_Z j * 10 + 10)%Q)) /\
  ((b <= -1)%Q -> (binIndex b < 0)%Z).
Proof.
  destruct (binIndex_sign b) as (Hpos & Hneg & Hle).
  split; [|exact Hneg]. intros Hb.
  split; [split; [by apply Hpos | exact Hle]|]. split.
  - unfold binIndex, Math_floor.
    change (90 <= b)%Q with (inject_Z 9 * 10 <= b)%Q.
    rewrite <- (floor_tenth_ge b 9). lia.
  - intros j Hj. unfold binIndex, Math_floor. split.
    + intros H.
      assert (j <= Qfloor (b / 10))%Z as H1 by lia.
      assert (~ (j + 1 <= Qfloor (b / 10))%Z) as H2 by lia.
      apply floor_tenth_ge in H1. rewrite floor_tenth_ge in H2.
      rewrite inject_Z_plus in H2. change (inject_Z 1) with 1%Q in H2.
      split; [done|]. apply Qnot_le_lt. intros H3. apply H2. lra.
    + intros [H1 H2]. apply floor_tenth_ge in H1.
      assert (~ (j + 1 <= Qfloor (b / 10))%Z) as H3.
      { rewrite floor_tenth_ge, inject_Z_plus. change (inject_Z 1) with 1%Q.
        intros H3. lra. }
      lia.
Qed.

Lemma increment_length (counts : list nat) (i : Z) :
  length (increment counts i) = length counts.
Proof. unfold increment. destruct (i <? 0)%Z; [done|apply length_alter]. Qed.

Lemma increment_lookup (counts : list nat) (i : Z) (j : nat) :
  increment counts i !! j
  = (fun c => if decide (i = Z.of_nat j) then S c else c) <$> counts !! j.
Proof.
  unfold increment. destruct (i <? 0)%Z eqn:E.
  - apply Z.ltb_lt in E. destruct (counts !! j) as [c|]; [|done]. simpl.
    destruct (decide (i = Z.of_nat j)); [lia|done].
  - apply Z.ltb_ge in E. destruct (decide (Z.to_nat i = j)) as [<-|Hne].
    + rewrite list_lookup_alter_eq.
      destruct (counts !! Z.to_nat i) as [c|]; [|done]. simpl.
      destruct (decide (i = Z.of_nat (Z.to_nat i))); [done|lia].
    + rewrite list_lookup_alter_ne by done.
      destruct (counts !! j) as [c|]; [|done]. simpl.
      destruct (decide (i = Z.of_nat j)); [lia|done].
Qed.

Lemma sum_list_alter_S (l : list nat) (k : nat) :
  k < length l -> sum_list (alter S k l) = S (sum_list l).
Proof.
  revert k. induction l as [|x l IH]; intros [|k] H; simpl in *; try lia.
  change (list_alter S k l) with (alter S k l). rewrite IH by lia. lia.
Qed.

Lemma histogram_fold (dist : list Q) (counts : list nat) :
  length counts = 10 ->
  let r := fold_left (fun c b => increment c (binIndex b)) dist counts in
  length r = 10 /\
  (forall j, r !! j =
     (fun c => c + length (filter (fun b => binIndex b = Z.of_nat j) dist))
       <$> counts !! j) /\
  (Forall (fun b => (0 <= b \/ b <= -1)%Q) dist ->
   sum_list r
   = sum_list counts + length (List.filter (fun b => Qle_bool 0 b) dist)).
Proof.
  revert counts. induction dist as [|b dist IH]; intros counts Hc; cbv zeta.
  - simpl. split; [done|]. split; [|intros _; lia].
    intros j. destruct (counts !! j); simpl; [f_equal; lia | done].
  - cbn [fold_left].
    destruct (IH (increment counts (binIndex b))) as (I1 & I2 & I3);
      [by rewrite increment_length|]. cbv zeta in *.
    split; [done|]. split.
    + intros j. rewrite I2, increment_lookup, filter_cons.
      destruct (counts !! j) as [c|]; [|done]. simpl. f_equal.
      destruct (decide (binIndex b = Z.of_nat j)) as [E|E]; simpl; lia.
    + intros Hall. apply Forall_cons in Hall as [Hb Hall].
      rewrite (I3 Hall). unfold increment. rewrite count_cons.
      destruct (binIndex_sign b) as (Hpos & Hneg & Hle).
      destruct Hb as [Hb|Hb].
      * specialize (Hpos Hb).
        assert ((binIndex b <? 0)%Z = false) as -> by (apply Z.ltb_ge; lia).
        assert (Qle_bool 0 b = true) as -> by (by apply Qle_bool_iff).
        rewrite sum_list_alter_S by lia. lia.
      * specialize (Hneg Hb).
        assert ((binIndex b <? 0)%Z = true) as -> by (apply Z.ltb_lt; lia).
        assert (Qle_bool 0 b = false) as ->.
        { destruct (Qle_bool 0 b) eqn:Q; [|done].
          apply Qle_bool_iff in Q. lra. }
        lia.
Qed.

(** X14. The histogram always has ten counters, one per label.  When every
    brightness is either not negative or at most -1, counter [j] is the
    number of lamps whose brightness falls into bin [j], and the counters
    add up to the number of lamps with a brightness that is not negative:
    such a lamp is counted once, and a lamp with a brightness of -1 or less
    is counted nowhere. *)
Theorem brightness_histogram_counts_lamps (dist : list Q) :
  length (brightnessCounts dist) = 10 /\
  length brightnessLabels = 10 /\
  (Forall (fun b => (0 <= b \/ b <= -1)%Q) dist ->
   (forall j, j < 10 ->
      brightnessCounts dist !! j
      = Some (length (filter (fun b => binIndex b = Z.of_nat j) dist))) /\
   sum_list (brightnessCounts dist)
   = length (List.filter (fun b => Qle_bool 0 b) dist)).
Proof.
  destruct (histogram_fold dist (replicate 10 0)) as (H1 & H2 & H3);
    [by rewrite length_replicate|]. cbv zeta in *.
  unfold brightnessCounts. change (length brightnessBins - 1) with 10.
  split; [done|]. split; [reflexivity|]. intros Hall. split.
  - intros j Hj. rewrite H2, lookup_replicate_2 by done. done.
  - rewrite (H3 Hall). done.
Qed.

(** * Further properties of the alert center *)

Lemma floor_of_scaled_draw (r : Q) (n : Z) :
  (0 < n)%Z -> (0 <= r /\ r < 1)%Q ->
  (0 <= Math_floor (r * inject_Z n) < n)%Z.
Proof.
  intros Hn [H0 H1]. unfold Math_floor.
  assert (0 < inject_Z n)%Q as Hq
    by (change 0%Q with (inject_Z 0); by rewrite <- Zlt_Qlt).
  split.
  - apply Qfloor_ge. change (inject_Z 0) with 0%Q. nra.
  - destruct (Z.lt_ge_cases (Qfloor (r * inject_Z n)) n) as [H|H]; [done|].
    apply Qfloor_ge in H. nra.
Qed.

(** X15. With [Math.random()] in [[0, 1)], an alert raised by the alert
    center carries the clock reading as its id, an intersection number
    between 0 and 99, between one and three responders, and coordinates
    within 0.05 degrees of (40.7128, -74.0060); it is drawn on the map,
    while the dashboard's alert, which has no coordinates, is not. *)
Theorem accident_alert_fields (env : Env) (c : Q) :
  unit_draws env ->
  let a := accident_alert env c in
  id a = toString (now env) /\
  (exists k, (0 <= k <= 99)%Z /\
             location a = ("Intersection " ++ toString k)%string) /\
  (exists lat lng, coordinates a = Some (lat, lng) /\
     (40.6628 <= lat /\ lat < 40.7628)%Q /\
     (-74.056 <= lng /\ lng < -73.956)%Q) /\
  (exists n, (1 <= n <= 3)%Z /\ exists r, responders a = Some r /\ (r == inject_Z n)%Q) /\
  map_markers [a; dashboard_alert env] = [a].
Proof.
  intros H. cbv zeta. split; [done|].
  pose proof (H 0) as H0. pose proof (H 1) as [H1 H1'].
  pose proof (H 2) as [H2 H2'].
  split; [|split; [|split; [|done]]].
  - exists (Math_floor (random env 0 * 100)). split; [|done].
    pose proof (floor_of_scaled_draw (random env 0) 100 eq_refl H0) as B.
    change (inject_Z 100) with 100%Q in B. lia.
  - eexists _, _. split; [reflexivity|]. split; split; lra.
  - exists (Math_floor (random env 3 * 3) + 1)%Z.
    split; [by apply seeded_responders|].
    eexists. split; [reflexivity|].
    rewrite inject_Z_plus. reflexivity.
Qed.

(** * Properties of the lamp health dashboard *)

Lemma round_of_whole_plus (h : Z) (j : Q) :
  (-1 <= j /\ j < 1)%Q ->
  (h - 1 <= Math_round (inject_Z h + j) <= h + 1)%Z.
Proof.
  intros [H1 H2]. unfold Math_round. split.
  - apply Qfloor_ge. unfold Z.sub. rewrite inject_Z_plus.
    change (inject_Z (- (1))) with (-1)%Q. lra.
  - destruct (Z.le_gt_cases (Qfloor (inject_Z h + j + (1 # 2))) (h + 1))
      as [H|H]; [done|].
    assert (h + 2 <= Qfloor (inject_Z h + j + (1 # 2)))%Z as H' by lia.
    apply Qfloor_ge in H'. rewrite inject_Z_plus in H'.
    change (inject_Z 2) with 2%Q in H'. lra.
Qed.

Lemma latency_of_draw (r : Q) :
  (0 <= r /\ r < 1)%Q ->
  (100 <= Z.max 50 (Math_round (100 + r * 200)) <= 300)%Z.
Proof.
  intros [H0 H1]. unfold Math_round.
  assert (100 <= Qfloor (100 + r * 200 + (1 # 2)))%Z as Hl
    by (apply Qfloor_ge; change (inject_Z 100) with 100%Q; lra).
  assert (Qfloor (100 + r * 200 + (1 # 2)) <= 300)%Z as Hu.
  { destruct (Z.le_gt_cases (Qfloor (100 + r * 200 + (1 # 2))) 300)
      as [H|H]; [done|].
    assert (301 <= Qfloor (100 + r * 200 + (1 # 2)))%Z as H' by lia.
    apply Qfloor_ge in H'. change (inject_Z 301) with 301%Q in H'. lra. }
  lia.
Qed.

Lemma tick_from_lookup (k : nat) (draws : nat -> Q) (clock : nat -> Z)
    (lamps : list Lamp) (i : nat) (l : Lamp) :
  lamps !! i = Some l ->
  exists l', tick_from k draws clock lamps !! i = Some l' /\
    (online l = false -> l' = l) /\
    (online l = true -> exists j d1 d2 t,
        l' = jittered l d1 d2 t /\ d1 = draws (2 * j) /\ d2 = draws (2 * j + 1)).
Proof.
  revert k i. induction lamps as [|x lamps IH]; intros k i H; [done|].
  destruct i as [|i]; simpl in H.
  - injection H as ->. simpl. destruct (online l) eqn:E; simpl.
    + eexists. split; [done|]. split; [done|]. intros _.
      by exists k, (draws (2 * k)), (draws (2 * k + 1)), (clock k).
    + eexists. split; [done|]. split; done.
  - simpl. destruct (online x); simpl; by apply IH.
Qed.

Lemma tick_from_length (k : nat) (draws : nat -> Q) (clock : nat -> Z)
    (lamps : list Lamp) :
  length (tick_from k draws clock lamps) = length lamps.
Proof.
  revert k. induction lamps as [|x lamps IH]; intros k; [done|].
  simpl. destruct (online x); simpl; by rewrite IH.
Qed.

(** X16. A firing of the timer keeps the number and the order of the
    lamps and, of every lamp, its id, code, district, status, online flag,
    brightness response, uptime and incidents.  An offline lamp is left
    exactly as it is.  An online lamp gets a whole health between 50 and
    100 and, with [Math.random()] in [[0, 1)], a whole latency between 100
    and 300. *)
Theorem tick_keeps_the_lamps
    (draws : nat -> Q) (clock : nat -> Z) (lamps : list Lamp) :
  (forall k, (0 <= draws k /\ draws k < 1)%Q) ->
  length (tick draws clock lamps) = length lamps /\
  (forall i l, lamps !! i = Some l ->
     exists l', tick draws clock lamps !! i = Some l' /\
       lamp_id l' = lamp_id l /\ code l' = code l /\
       district l' = district l /\ lamp_status l' = lamp_status l /\
       online l' = online l /\ brightnessResponse l' = brightnessResponse l /\
       uptime l' = uptime l /\ incidents l' = incidents l /\
       (online l = false -> l' = l) /\
       (online l = true ->
          exists h t, health l' = inject_Z h /\ (50 <= h <= 100)%Z /\
                      latencyMs l' = inject_Z t /\ (100 <= t <= 300)%Z)).
Proof.
  intros Hd. split; [apply tick_from_length|].
  intros i l Hi.
  destruct (tick_from_lookup 0 draws clock lamps i l Hi) as (l' & Hl' & Hoff & Hon).
  exists l'. split; [exact Hl'|].
  destruct (online l) eqn:E.
  - destruct (Hon eq_refl) as (j & d1 & d2 & t & -> & -> & ->).
    simpl. repeat split; try done.
    intros _. eexists _, _. split; [reflexivity|]. split; [lia|].
    split; [reflexivity|]. apply latency_of_draw. apply Hd.
  - rewrite (Hoff eq_refl). repeat split; done.
Qed.

Lemma count_tick_from (f : Lamp -> bool) (k : nat) (draws : nat -> Q)
    (clock : nat -> Z) (lamps : list Lamp) :
  (forall l d1 d2 t, f (jittered l d1 d2 t) = f l) ->
  length (List.filter f (tick_from k draws clock lamps))
  = length (List.filter f lamps).
Proof.
  intros Hf. revert k. induction lamps as [|x lamps IH]; intros k; [done|].
  cbn [tick_from]. destruct (online x); cbn [negb];
    rewrite !count_cons, ?Hf, IH; done.
Qed.

Lemma health_sum_as_fold (lamps : list Lamp) (acc : Q) :
  fold_left (fun s x => (s + health x)%Q) lamps acc
  = fold_left Qplus (map health lamps) acc.
Proof. revert acc. induction lamps as [|x lamps IH]; intros acc; [done|apply IH]. Qed.

(** X17. The header counters of the lamp dashboard (lamps in total, lamps
    online, lamps with issues) are the same after a firing of the timer as
    before: the timer never changes a status or an online flag.  The
    average health of a non-empty list is a whole number between any two
    whole bounds of the lamps' health; for no lamp at all it is not a
    number. *)
Theorem aggregated_is_stable
    (draws : nat -> Q) (clock : nat -> Z) (lamps : list Lamp) (lo hi : Z) :
  agg_total (aggregated (tick draws clock lamps)) = agg_total (aggregated lamps) /\
  agg_online (aggregated (tick draws clock lamps)) = agg_online (aggregated lamps) /\
  agg_issues (aggregated (tick draws clock lamps)) = agg_issues (aggregated lamps) /\
  agg_avgHealth (aggregated []) = None /\
  (lamps <> [] ->
   Forall (fun l => (inject_Z lo <= health l /\ health l <= inject_Z hi)%Q) lamps ->
   exists v, agg_avgHealth (aggregated lamps) = Some v /\ (lo <= v <= hi)%Z).
Proof.
  split; [apply tick_from_length|].
  split; [by apply count_tick_from|].
  split; [by apply count_tick_from|].
  split; [done|].
  intros Hne Hall. destruct lamps as [|x lamps]; [done|].
  unfold aggregated. cbn [agg_avgHealth]. set (ls := x :: lamps) in *.
  change (length ls) with (S (length lamps)) at 1. cbv iota.
  eexists. split; [reflexivity|].
  rewrite health_sum_as_fold.
  assert (Forall (fun b => (inject_Z lo <= b /\ b <= inject_Z hi)%Q)
            (map health ls)) as Hall'
    by (apply Forall_fmap; exact Hall).
  destruct (Qsum_bounds _ _ _ 0 Hall') as [H1 H2].
  rewrite length_map in H1, H2.
  assert (0 < inject_Z (Z.of_nat (length ls)))%Q as Hpos.
  { change 0%Q with (inject_Z 0). rewrite <- Zlt_Qlt. simpl. lia. }
  set (n := inject_Z (Z.of_nat (length ls))) in *.
  set (sum := fold_left Qplus (map health ls) 0%Q) in *.
  assert (inject_Z lo <= sum / n)%Q as Hl
    by (apply Qle_shift_div_l; [done|]; lra).
  assert (sum / n <= inject_Z hi)%Q as Hh
    by (apply Qle_shift_div_r; [done|]; lra).
  unfold Math_round. split.
  - apply Qfloor_ge. lra.
  - destruct (Z.le_gt_cases (Qfloor (sum / n + (1 # 2))) hi) as [H|H]; [done|].
    assert (hi + 1 <= Qfloor (sum / n + (1 # 2)))%Z as H' by lia.
    apply Qfloor_ge in H'. rewrite inject_Z_plus in H'.
    change (inject_Z 1) with 1%Q in H'. lra.
Qed.

(** X18. With [Math.random()] in [[0, 1)], a firing of the timer moves the
    health of an online lamp whose health is a whole number between 50 and
    100 by at most one. *)
Theorem health_drifts_by_one
    (draws : nat -> Q) (clock : nat -> Z) (lamps : list Lamp)
    (i : nat) (l : Lamp) (h : Z) :
  (forall k, (0 <= draws k /\ draws k < 1)%Q) ->
  lamps !! i = Some l -> online l = true ->
  whole_health l h -> (50 <= h <= 100)%Z ->
  exists l' h', tick draws clock lamps !! i = Some l' /\
                whole_health l' h' /\ (h - 1 <= h' <= h + 1)%Z.
Proof.
  intros Hd Hi Hon Hh Hr.
  destruct (tick_from_lookup 0 draws clock lamps i l Hi) as (l' & Hl' & _ & H).
  destruct (H Hon) as (j & d1 & d2 & t & -> & -> & ->).
  eexists _, _. split; [exact Hl'|]. split; [reflexivity|].
  unfold whole_health in Hh. rewrite Hh.
  destruct (Hd (2 * j)) as [H0 H1]. unfold jittered. cbn [health].
  set (d := draws (2 * j)) in *.
  pose proof (round_of_whole_plus h ((d - 0.5) * 2)%Q) as B.
  assert (-1 <= (d - 0.5) * 2 /\ (d - 0.5) * 2 < 1)%Q as Hj by (split; lra).
  specialize (B Hj). lia.
Qed.

(** * Properties of the listener registry *)

Lemma forEach_try_fst (throws : nat -> bool) (s : CallbackSet) :
  fst (forEach_try throws s) = s.
Proof. induction s as [|cb s IH]; [done|]. simpl. by rewrite IH. Qed.

Lemma forEach_try_log (throws : nat -> bool) (s : CallbackSet) :
  length (snd (forEach_try throws s)) = length (List.filter throws s).
Proof.
  induction s as [|cb s IH]; [done|]. simpl.
  destruct (throws cb); simpl; by rewrite IH.
Qed.

Lemma called_lookup (event : string) (w : WebSocketService) :
  called event w = default [] (listeners w !! event).
Proof.
  unfold called, notifyListeners.
  destruct (listeners w !! event); [apply forEach_try_fst | done].
Qed.

Lemma elem_of_Set_add (x cb : nat) (s : CallbackSet) :
  x ∈ Set_add cb s <-> x = cb \/ x ∈ s.
Proof.
  unfold Set_add. case_bool_decide as H.
  - split; [by right | by intros [-> | ?]].
  - rewrite elem_of_app, list_elem_of_singleton. tauto.
Qed.

Lemma elem_of_Set_delete (x cb : nat) (s : CallbackSet) :
  x ∈ Set_delete cb s <-> x ∈ s /\ x <> cb.
Proof. unfold Set_delete. rewrite list_elem_of_filter. tauto. Qed.

Lemma Set_add_twice (cb : nat) (s : CallbackSet) :
  Set_add cb (Set_add cb s) = Set_add cb s.
Proof.
  unfold Set_add at 1. rewrite bool_decide_eq_true_2; [done|].
  apply elem_of_Set_add. by left.
Qed.

Lemma Set_add_NoDup (cb : nat) (s : CallbackSet) :
  NoDup s -> NoDup (Set_add cb s).
Proof.
  intros H. unfold Set_add. case_bool_decide as Hin; [done|].
  apply NoDup_app. split; [done|]. split; [|apply NoDup_singleton].
  intros x Hx Hx'. apply list_elem_of_singleton in Hx'. by subst.
Qed.

Lemma ws_on_lookup (e e' : string) (cb : nat) (w : WebSocketService) :
  listeners (ws_on e cb w) !! e'
  = if decide (e = e') then Some (Set_add cb (default [] (listeners w !! e)))
    else listeners w !! e'.
Proof.
  unfold ws_on. simpl. destruct (decide (e = e')) as [<-|Hne].
  - rewrite lookup_alter_eq. destruct (listeners w !! e) as [s|] eqn:E.
    + by rewrite E.
    + by rewrite lookup_insert_eq.
  - rewrite lookup_alter_ne by done.
    destruct (listeners w !! e); [done|]. by rewrite lookup_insert_ne.
Qed.

Lemma ws_off_lookup (e e' : string) (cb : nat) (w : WebSocketService) :
  listeners (ws_off e cb w) !! e'
  = if decide (e = e') then Set_delete cb <$> (listeners w !! e)
    else listeners w !! e'.
Proof.
  unfold ws_off. destruct (listeners w !! e) as [s|] eqn:E; simpl.
  - destruct (decide (e = e')) as [<-|Hne].
    + by rewrite lookup_insert_eq.
    + by rewrite lookup_insert_ne.
  - destruct (decide (e = e')) as [<-|Hne]; [by rewrite E | done].
Qed.

Lemma service_eq (w1 w2 : WebSocketService) :
  socket w1 = socket w2 ->
  (forall k, listeners w1 !! k = listeners w2 !! k) -> w1 = w2.
Proof.
  destruct w1 as [s1 m1], w2 as [s2 m2]. simpl. intros -> H.
  f_equal. by apply map_eq.
Qed.

(** X19. Registering a callback for an event makes a notification of the
    event call it, and removing it makes the notification skip it; neither
    changes whether any other callback is called for any event.
    Registering twice is registering once.  Removing a callback of an
    event nobody registered for changes nothing, and after [disconnect]
    no callback is called for any event. *)
Theorem registry_on_off (e : string) (cb : nat) (w : WebSocketService) :
  cb ∈ called e (ws_on e cb w) /\
  (cb ∉ called e (ws_off e cb w)) /\
  (forall e' cb', e' <> e \/ cb' <> cb ->
     (cb' ∈ called e' (ws_on e cb w) <-> cb' ∈ called e' w) /\
     (cb' ∈ called e' (ws_off e cb w) <-> cb' ∈ called e' w)) /\
  ws_on e cb (ws_on e cb w) = ws_on e cb w /\
  (listeners w !! e = None -> ws_off e cb w = w) /\
  (forall e', called e' (ws_disconnect w) = []).
Proof.
  split; [|split; [|split; [|split; [|split]]]].
  - rewrite called_lookup, ws_on_lookup. rewrite decide_True by done.
    simpl. apply elem_of_Set_add. by left.
  - rewrite called_lookup, ws_off_lookup. rewrite decide_True by done.
    destruct (listeners w !! e) as [s|]; simpl.
    + rewrite elem_of_Set_delete. tauto.
    + apply not_elem_of_nil.
  - intros e' cb' Hne. rewrite !called_lookup, ws_on_lookup, ws_off_lookup.
    destruct (decide (e = e')) as [<-|He]; [|done].
    assert (cb' <> cb) as Hcb by (destruct Hne; done).
    destruct (listeners w !! e) as [s|]; simpl.
    + rewrite elem_of_Set_add, elem_of_Set_delete. tauto.
    + rewrite elem_of_Set_add. split; [tauto|done].
  - apply service_eq; [done|]. intros k. rewrite !ws_on_lookup.
    destruct (decide (e = k)) as [<-|Hk]; [|done].
    rewrite decide_True by done. simpl. by rewrite Set_add_twice.
  - intros H. unfold ws_off. by rewrite H.
  - intros e'. by rewrite called_lookup.
Qed.

Lemma apply_op_NoDup (w : WebSocketService) (op : RegistryOp) :
  (forall e s, listeners w !! e = Some s -> NoDup s) ->
  forall e s, listeners (apply_op w op) !! e = Some s -> NoDup s.
Proof.
  intros H e s. destruct op as [e0 cb|e0 cb|]; cbn [apply_op].
  - rewrite ws_on_lookup. destruct (decide (e0 = e)) as [<-|Hne]; [|apply H].
    intros [= <-]. apply Set_add_NoDup.
    destruct (listeners w !! e0) as [s0|] eqn:E; simpl;
      [by apply (H e0) | constructor].
  - rewrite ws_off_lookup. destruct (decide (e0 = e)) as [<-|Hne]; [|apply H].
    destruct (listeners w !! e0) as [s0|] eqn:E; simpl; [|done].
    intros [= <-]. unfold Set_delete. apply NoDup_filter. by apply (H e0).
  - unfold ws_disconnect. cbn [listeners]. by rewrite lookup_empty.
Qed.

Lemma notified_lookup (throws : nat -> bool) (event : string)
    (w : WebSocketService) :
  fst (notifyListeners throws event w) = default [] (listeners w !! event).
Proof.
  unfold notifyListeners.
  destruct (listeners w !! event); [apply forEach_try_fst | done].
Qed.

Lemma registry_lookup (ops : list RegistryOp) (e : string) :
  default [] (listeners (fold_left apply_op ops new_service) !! e)
  = registration_order e ops.
Proof.
  unfold registration_order.
  induction ops as [|op ops IH] using rev_ind; [done|].
  rewrite !fold_left_app. cbn [fold_left]. rewrite <- IH.
  set (w := fold_left apply_op ops new_service).
  destruct op as [e0 cb|e0 cb|]; cbn [apply_op registered_after].
  - rewrite ws_on_lookup. destruct (decide (e0 = e)) as [->|Hne]; [|done].
    cbn [default]. unfold Set_add.
    destruct (decide (cb ∈ default [] (listeners w !! e))) as [Hin|Hin].
    + by rewrite bool_decide_eq_true_2.
    + by rewrite bool_decide_eq_false_2.
  - rewrite ws_off_lookup. destruct (decide (e0 = e)) as [->|Hne]; [|done].
    by destruct (listeners w !! e).
  - done.
Qed.

(** X20. After any sequence of registrations, removals and disconnects on a
    fresh service, a notification calls the callbacks registered for the
    event and not removed since, each one once, in the order of
    registration: a callback registered while it is not registered goes
    last, one registered again keeps its place, a removal keeps the order
    of the others, and a disconnect drops them all.  This holds whether or
    not some callbacks raise, and one line is logged per raising
    callback. *)
Theorem notification_in_registration_order
    (ops : list RegistryOp) (throws : nat -> bool) (e : string) :
  let w := fold_left apply_op ops new_service in
  fst (notifyListeners throws e w) = registration_order e ops /\
  NoDup (fst (notifyListeners throws e w)) /\
  length (snd (notifyListeners throws e w))
  = length (List.filter throws (registration_order e ops)) /\
  fst (notifyListeners throws "status"
         (fold_left apply_op
            [Op_on "status" 1; Op_on "status" 2; Op_on "status" 1;
             Op_on "status" 3; Op_off "status" 2; Op_on "status" 2]
            new_service))
  = [1; 3; 2].
Proof.
  cbv zeta.
  assert (forall e s, listeners (fold_left apply_op ops new_service) !! e = Some s ->
                      NoDup s) as Hnd.
  { induction ops as [|op ops IH] using rev_ind.
    - intros e' s. simpl. by rewrite lookup_empty.
    - rewrite fold_left_app. simpl. by apply apply_op_NoDup. }
  split; [by rewrite notified_lookup, registry_lookup|].
  split; [|split].
  - rewrite notified_lookup.
    destruct (listeners (fold_left apply_op ops new_service) !! e) as [s|] eqn:E;
      simpl; [by apply (Hnd e) | constructor].
  - rewrite <- registry_lookup. unfold notifyListeners.
    destruct (listeners (fold_left apply_op ops new_service) !! e) as [s|];
      simpl; [apply forEach_try_log | done].
  - rewrite notified_lookup, registry_lookup. vm_compute. reflexivity.
Qed.

(** * Further instances on concrete inputs *)

Lemma addAlert_keeps_newest_witness :
  length (@nil Alert) <= 20 /\
  fold_left (fun acc a => addAlert a acc)
            [dashboard_alert (env_at 1); first_alert] []
  = take 20 (rev [dashboard_alert (env_at 1); first_alert] ++ []).
Proof.
  split; [simpl; lia|].
  apply (addAlert_keeps_newest [dashboard_alert (env_at 1); first_alert] []).
  simpl. lia.
Defined.

Lemma updateAlert_commutes_witness :
  "1000" <> "2000" /\
  p_id (status_only resolved) = None /\ p_id (status_only active) = None /\
  updateAlert "1000" (status_only resolved)
    (updateAlert "2000" (status_only active) [first_alert])
  = updateAlert "2000" (status_only active)
      (updateAlert "1000" (status_only resolved) [first_alert]).
Proof.
  assert ("1000" <> "2000") as H by discriminate.
  split; [exact H|]. split; [reflexivity|]. split; [reflexivity|].
  exact (updateAlert_commutes "1000" "2000" (status_only resolved)
           (status_only active) [first_alert] H eq_refl eq_refl).
Defined.

Lemma updateAlert_twice_witness :
  (p_id (status_only investigating) = None \/
   p_id (status_only investigating) = Some "1000") /\
  updateAlert "1000" (status_only active)
    (updateAlert "1000" (status_only investigating) [first_alert])
  = updateAlert "1000"
      (then_updates (status_only investigating) (status_only active))
      [first_alert].
Proof.
  split; [left; reflexivity|].
  exact (proj1 (updateAlert_twice "1000" (status_only investigating)
                  (status_only active) [first_alert]) (or_introl eq_refl)).
Defined.


Lemma dispatch_keeps_the_window_witness :
  (forall a, a ∈ [first_alert] -> id a <> id (dashboard_alert (env_at 5))) /\
  dispatch action_dispatch (dashboard_alert (env_at 5)) NetworkFailure [first_alert]
  = [first_alert].
Proof.
  assert (forall a, a ∈ [first_alert] -> id a <> id (dashboard_alert (env_at 5)))
    as H.
  { intros a Ha. apply list_elem_of_singleton in Ha. subst a. simpl. discriminate. }
  split; [exact H|].
  exact (proj2 (proj2 (dispatch_keeps_the_window action_dispatch
                         (dashboard_alert (env_at 5)) NetworkFailure
                         [first_alert])) H).
Defined.

Lemma latency_between_30_and_60_witness :
  Forall draws_in_unit shared_record_run /\
  (30 <= aiLatency (snd (run initial_store shared_record_run)) /\
   aiLatency (snd (run initial_store shared_record_run)) <= 60)%Q.
Proof.
  assert (Forall draws_in_unit shared_record_run) as H
    by (unfold shared_record_run; repeat apply List.Forall_cons;
        try apply List.Forall_nil; exact (unit_draws_env_at 1000)).
  split; [exact H|].
  exact (latency_between_30_and_60 shared_record_run H).
Defined.

Lemma avgBrightness_of_percentages_witness :
  Forall in_range [100%Q; 30%Q] /\
  in_range (avgBrightness [100%Q; 30%Q]).
Proof.
  assert (Forall in_range [100%Q; 30%Q]) as H
    by (repeat constructor; compute; discriminate).
  split; [exact H|].
  exact (proj2 (avgBrightness_of_percentages
                  (mkMetrics 40 100 70 120 (-5) [100%Q; 30%Q] 3 2 1 10)) H).
Defined.

Lemma binIndex_of_a_brightness_witness :
  (0 <= 100)%Q /\ (90 <= 100)%Q /\ binIndex 100 = 9%Z.
Proof.
  assert (0 <= 100)%Q as H0 by (compute; discriminate).
  assert (90 <= 100)%Q as H by (compute; discriminate).
  split; [exact H0|]. split; [exact H|].
  exact (proj2 (proj1 (proj2 (proj1 (binIndex_of_a_brightness 100) H0))) H).
Defined.

Lemma brightness_histogram_counts_lamps_witness :
  Forall (fun b => (0 <= b \/ b <= -1)%Q) [0%Q; 5%Q; 100%Q; (-3)%Q] /\
  sum_list (brightnessCounts [0%Q; 5%Q; 100%Q; (-3)%Q])
  = length (List.filter (fun b => Qle_bool 0 b) [0%Q; 5%Q; 100%Q; (-3)%Q]).
Proof.
  assert (Forall (fun b => (0 <= b \/ b <= -1)%Q) [0%Q; 5%Q; 100%Q; (-3)%Q])
    as H.
  { repeat apply List.Forall_cons; try apply List.Forall_nil;
      [left | left | left | right]; compute; discriminate. }
  split; [exact H|].
  exact (proj2 (proj2 (proj2 (brightness_histogram_counts_lamps
                                [0%Q; 5%Q; 100%Q; (-3)%Q])) H)).
Defined.

Lemma accident_alert_fields_witness :
  unit_draws (env_at 1000) /\ id first_alert = toString 1000.
Proof.
  split; [exact (unit_draws_env_at 1000)|].
  exact (proj1 (accident_alert_fields (env_at 1000) 95 (unit_draws_env_at 1000))).
Defined.

Lemma half_draws (k : nat) : (0 <= (fun _ : nat => 1 # 2) k /\ (fun _ : nat => 1 # 2) k < 1)%Q.
Proof. split; compute; [discriminate | reflexivity]. Defined.

Lemma tick_keeps_the_lamps_witness :
  (forall k, (0 <= (fun _ : nat => 1 # 2) k /\ (fun _ : nat => 1 # 2) k < 1)%Q) /\
  length (tick (fun _ => 1 # 2) (fun _ => 9%Z) (initial_lamps 0 "" "" ""))
  = length (initial_lamps 0 "" "" "").
Proof.
  split; [exact half_draws|].
  exact (proj1 (tick_keeps_the_lamps (fun _ => 1 # 2) (fun _ => 9%Z)
                  (initial_lamps 0 "" "" "") half_draws)).
Defined.

Lemma aggregated_is_stable_witness :
  initial_lamps 0 "" "" "" <> [] /\
  Forall (fun l => (inject_Z 60 <= health l /\ health l <= inject_Z 98)%Q)
         (initial_lamps 0 "" "" "") /\
  (exists v, agg_avgHealth (aggregated (initial_lamps 0 "" "" "")) = Some v /\
             (60 <= v <= 98)%Z).
Proof.
  assert (Forall (fun l => (inject_Z 60 <= health l /\ health l <= inject_Z 98)%Q)
            (initial_lamps 0 "" "" "")) as H
    by (repeat constructor; compute; discriminate).
  split; [discriminate|]. split; [exact H|].
  apply (proj2 (proj2 (proj2 (proj2
           (aggregated_is_stable (fun _ => 1 # 2) (fun _ => 9%Z)
              (initial_lamps 0 "" "" "") 60 98)))));
    [discriminate | exact H].
Defined.

Lemma health_drifts_by_one_witness :
  (forall k, (0 <= (fun _ : nat => 1 # 2) k /\ (fun _ : nat => 1 # 2) k < 1)%Q) /\
  (exists l' h',
     tick (fun _ => 1 # 2) (fun _ => 9%Z) (initial_lamps 0 "" "" "") !! 1 = Some l' /\
     whole_health l' h' /\ (91 - 1 <= h' <= 91 + 1)%Z).
Proof.
  split; [exact half_draws|].
  apply (health_drifts_by_one (fun _ => 1 # 2) (fun _ => 9%Z)
           (initial_lamps 0 "" "" "") 1
           (mkLamp "2" "SL-002" "Shopping District" 91 Operational true
                   (0 - 75 * 1000) 96 98.7
                   [mkIncident "" "Temporary fallback to fixed brightness"] 180)
           91 half_draws); [reflexivity | reflexivity | reflexivity | lia].
Defined.

Lemma registry_on_off_witness :
  listeners new_service !! "status" = None /\
  ws_off "status" 1 new_service = new_service.
Proof.
  split; [reflexivity|].
  exact (proj1 (proj2 (proj2 (proj2 (proj2
           (registry_on_off "status" 1 new_service))))) eq_refl).
Defined.

(** * Properties of the API service *)

Lemma api_step_agrees (st : ApiState) (c : ApiCall) :
  api_token st = stored_token st ->
  api_token (api_step st c) = stored_token (api_step st c).
Proof.
  intros H. destruct c as [[message|text|tok]|]; simpl; try done.
  by destruct (truthy tok).
Qed.

(** X21. From construction on, through any sequence of logins (failed,
    or successful with or without a token in the body) and logouts, the
    token held by the service is the one held in the storage.  After a
    logout a request carries no authorization header, while [detectImage]
    still sends one, with the text ["Bearer null"]. *)
Theorem token_follows_storage (storage : option string) (calls : list ApiCall) :
  let st := fold_left api_step calls (ApiService_new storage) in
  api_token st = stored_token st /\
  (forall caller, request_headers (api_logout st) caller !! "Authorization"
                  = caller !! "Authorization") /\
  detectImage_headers (api_logout st) !! "Authorization" = Some "Bearer null".
Proof.
  cbv zeta. split; [|split].
  - induction calls as [|c calls IH] using rev_ind; [done|].
    rewrite fold_left_app. simpl. by apply api_step_agrees.
  - intros caller. unfold request_headers. simpl.
    rewrite lookup_union_l; [done|]. by rewrite lookup_singleton_ne.
  - done.
Qed.

(** X22. The headers of a request: the authorization is present exactly
    when the service holds a non-empty token (or the caller supplied one),
    and with a token it is ["Bearer "] followed by the token, whatever the
    caller supplied; the content type is the caller's if the caller gives
    one and JSON otherwise; every other header is the caller's. *)
Theorem request_headers_precedence
    (st : ApiState) (caller : gmap string string) :
  (forall t, api_token st = Some t -> t <> "" ->
     request_headers st caller !! "Authorization"
     = Some ("Bearer " ++ t)%string) /\
  (api_token st = None \/ api_token st = Some "" ->
     request_headers st caller !! "Authorization" = caller !! "Authorization") /\
  request_headers st caller !! "Content-Type"
  = Some (default "application/json" (caller !! "Content-Type")) /\
  (forall k, k <> "Authorization" -> k <> "Content-Type" ->
     request_headers st caller !! k = caller !! k).
Proof.
  assert (forall k, k <> "Content-Type" ->
            (caller ∪ {["Content-Type" := "application/json"]}) !! k
            = caller !! k) as Hu.
  { intros k Hk. rewrite lookup_union_l; [done|]. by rewrite lookup_singleton_ne. }
  unfold request_headers. split; [|split; [|split]].
  - intros t Ht Hne. rewrite Ht. simpl.
    rewrite (proj2 (String.eqb_neq t "") Hne). simpl.
    by rewrite lookup_insert_eq.
  - intros [H|H]; rewrite H; simpl; by apply Hu.
  - assert ((caller ∪ {["Content-Type" := "application/json"]}) !! "Content-Type"
            = Some (default "application/json" (caller !! "Content-Type"))) as Hc.
    { rewrite lookup_union. rewrite lookup_singleton_eq.
      by destruct (caller !! "Content-Type"). }
    destruct (truthy (api_token st)); [|done].
    by rewrite lookup_insert_ne.
  - intros k Ha Hc. destruct (truthy (api_token st)).
    + rewrite lookup_insert_ne by done. by apply Hu.
    + by apply Hu.
Qed.

Lemma request_headers_precedence_witness :
  Some "abc" = Some "abc" /\ "abc" <> "" /\
  request_headers (mkApi (Some "abc") (Some "abc"))
                  {["Authorization" := "Basic xyz"]} !! "Authorization"
  = Some "Bearer abc".
Proof.
  assert ("abc" <> "") as H by discriminate.
  split; [reflexivity|]. split; [exact H|].
  exact (proj1 (request_headers_precedence (mkApi (Some "abc") (Some "abc"))
                  {["Authorization" := "Basic xyz"]}) "abc" eq_refl H).
Defined.
